(** * Attendance client (src/src/App.jsx): a shallow embedding

    The React components [TeacherView] and [StudentView] are modelled as
    explicit state records, one function per state-changing continuation of
    each handler, and a labelled step function whose labels are the things
    the browser can do to a mounted component: a click on a rendered control,
    the settlement of a promise an [async] handler is suspended on, the run
    of a [useEffect], the delivery of a socket message.

    JavaScript is single-threaded: the synchronous stretch of a handler
    between two [await]s runs without interleaving, so each stretch is one
    step.  Different handlers, and several calls of the same handler,
    interleave at their [await]s; the runtime records below keep the
    suspended calls.

    A component is followed while it is mounted. When a state is reached
    whose JSX cannot be rendered (an object as a React child), React unmounts
    the tree: the run ends there, no step is possible from such a state. *)

From stdpp Require Import gmap strings list fin_maps.
From Stdlib Require Import QArith Qcanon.

Close Scope Qc_scope.
Close Scope Q_scope.
Open Scope string_scope.

(** ** JavaScript values as the client sees them *)

Module JS.

(** A value obtained from [JSON.parse], a property read or a literal.
    Numbers are JSON numbers (canonical rationals; [JSON.parse] never
    yields NaN).  Arrays and objects nested inside another value are kept
    by reference: [VRef r] is the plain object of identity [r], and
    [VArr r child] the array of identity [r], where [child] tells whether
    all its items, at any depth, are valid React children (the client never
    looks at the items otherwise). *)
Inductive value :=
| VUndefined
| VNull
| VBool (b : bool)
| VNum (q : Qc)
| VStr (s : string)
| VRef (r : nat)
| VArr (r : nat) (child : bool).

#[global] Instance value_eq_dec : EqDecision value.
Proof. solve_decision. Defined.

Definition num (z : Z) : value := VNum (Q2Qc (inject_Z z)).

(** ToBoolean: [!!v], and the test of [v ? a : b] and [v || d]. *)
Definition truthy (v : value) : bool :=
  match v with
  | VUndefined | VNull => false
  | VBool b => b
  | VNum q => negb (bool_decide (q = Q2Qc 0%Q))
  | VStr s => negb (bool_decide (s = ""))
  | VRef _ => true
  | VArr _ _ => true
  end.

(** [a === b]: same type and same primitive value, or same reference. *)
Definition strict_eq (a b : value) : bool := bool_decide (a = b).

End JS.
Export JS.

(** A plain object: property name to value. *)
Abbreviation obj := (gmap string value).

(** [o.k]: the property, or [undefined] when [o] has none of that name. *)
Definition get (o : obj) (k : string) : value := default VUndefined (o !! k).

(** [JSON.stringify] of an object literal leaves out every property whose
    value is [undefined]. *)
Definition JSON_stringify (o : obj) : obj :=
  filter (λ kv, kv.2 ≠ VUndefined) o.

(** [a ?? b]. *)
Definition nullish_or (a b : value) : value :=
  match a with
  | VUndefined | VNull => b
  | _ => a
  end.

(** Whether React accepts [{v}] as a child: strings and numbers are text,
    booleans, [null] and [undefined] render nothing, an array renders its
    items, and a plain object makes the render throw. *)
Definition valid_child (v : value) : bool :=
  match v with
  | VRef _ => false
  | VArr _ child => child
  | _ => true
  end.

(** [findIndex]: the first index whose element satisfies [f], or [-1]. *)
Fixpoint findIndex_from {A} (f : A → bool) (i : Z) (l : list A) : Z :=
  match l with
  | [] => (-1)%Z
  | x :: l' => if f x then i else findIndex_from f (i + 1)%Z l'
  end.

Definition findIndex {A} (f : A → bool) (l : list A) : Z := findIndex_from f 0%Z l.

(** ** What the components are given and what they send *)

Record User := { userId : string; role : string; name : string }.

(** The props of both views: [{ token, user }]. *)
Record Props := { token : value; user : User }.

Record File := { file_name : string }.

(** The [fetch] calls of the file, one constructor per endpoint; every one
    carries [Authorization: Bearer ${token}].
    - [PostSessionStart]: POST /api/session/start
    - [GetTeacherView]:   GET  /api/session/${sessionId}/teacher-view
    - [PostOverride]:     POST /api/session/${sessionId}/override
    - [PostLocation]:     POST /api/session/${sessionId}/location
    - [PostSelfie]:       POST /api/session/${sessionId}/selfie (form data) *)
Inductive request :=
| PostSessionStart (tok : value) (body : obj)
| GetTeacherView (sid : value) (tok : value)
| PostOverride (sid : value) (tok : value) (body : obj)
| PostLocation (sid : string) (tok : value) (body : obj)
| PostSelfie (sid : string) (tok : value) (f : File).

Definition is_selfie (r : request) : bool :=
  match r with PostSelfie _ _ _ => true | _ => false end.

(** ** TeacherView *)

Module TeacherView.

(** [useState] cells of the component. [session] is [null] or the object
    built by [openSession]. *)
Record State := {
  consented : bool;
  session : option obj;
  students : list obj
}.

Definition initial : State :=
  {| consented := false; session := None; students := [] |}.

Definition setConsented (b : bool) (s : State) : State :=
  {| consented := b; session := session s; students := students s |}.
Definition setSession (v : obj) (s : State) : State :=
  {| consented := consented s; session := Some v; students := students s |}.
Definition setStudents (f : list obj → list obj) (s : State) : State :=
  {| consented := consented s; session := session s; students := f (students s) |}.

(** Whether the JSX of a row renders: [{st.userId}], [{st.distance ?? '-'}]
    and [{st.status}] are children. *)
Definition row_renders (st : obj) : bool :=
  valid_child (get st "userId")
  && valid_child (nullish_or (get st "distance") (VStr "-"))
  && valid_child (get st "status").

(** Whether the component's JSX renders: before the consent only [Consent]
    is returned, without a session only the button; with a session,
    [{session.sessionId}] and every row are rendered. *)
Definition renders (s : State) : bool :=
  if consented s then
    match session s with
    | None => true
    | Some ses => valid_child (get ses "sessionId") && forallb row_renders (students s)
    end
  else true.

(** The ['attendance:uploaded'] listener, as the updater given to
    [setStudents]. [next[idx]] is in range whenever [idx >= 0]. *)
Definition on_uploaded (payload : obj) (prev : list obj) : list obj :=
  let next := prev in
  let idx := findIndex (λ x, strict_eq (get x "userId") (get payload "userId")) next in
  if (0 <=? idx)%Z then
    <[Z.to_nat idx :=
        <["distance" := get payload "distance"]>
          (<["photoUrl" := get payload "photoUrl"]>
             (<["status" := VStr "uploaded"]>
                (default ∅ (next !! Z.to_nat idx))))]> next
  else
    <["distance" := get payload "distance"]>
      (<["photoUrl" := get payload "photoUrl"]>
         (<["status" := VStr "uploaded"]>
            (<["userId" := get payload "userId"]> ∅))) :: next.

(** The ['attendance:overridden'] listener. *)
Definition on_overridden (payload : obj) (prev : list obj) : list obj :=
  map (λ st, if strict_eq (get st "userId") (get payload "userId")
             then <["status" := get payload "status"]> st else st) prev.

(** The listeners the effect registers with [s.on]. *)
Definition listeners : list (string * (obj → list obj → list obj)) :=
  [ ("attendance:uploaded", on_uploaded);
    ("attendance:overridden", on_overridden) ].

(** Delivery of the message [name] with [payload]: every listener
    registered under that name runs, in registration order. *)
Definition dispatch (name : string) (payload : obj) (prev : list obj) : list obj :=
  foldl (λ acc h, if bool_decide (h.1 = name) then h.2 payload acc else acc)
        prev listeners.

(** The body of the POST in [openSession]. *)
Definition start_body (u : User) (lat lon : Qc) : obj :=
  JSON_stringify
    (<["teacherName" := VStr (name u)]>
       (<["expiryMinutes" := num 15]>
          (<["lon" := VNum lon]>
             (<["lat" := VNum lat]>
                (<["teacherId" := VStr (userId u)]> ∅))))).

(** The object [openSession] passes to [setSession]. *)
Definition session_of (data : obj) : obj :=
  <["teacherLocation" := get data "teacherLocation"]>
    (<["expiresAt" := get data "expiresAt"]>
       (<["startsAt" := get data "startsAt"]>
          (<["sessionId" := get data "sessionId"]> ∅))).

(** The body of the POST in [override]. *)
Definition override_body (studentId : value) (status : string) : obj :=
  JSON_stringify (<["status" := VStr status]> (<["userId" := studentId]> ∅)).

(** The mounted component with what surrounds it: the socket the effect
    holds (the room it joined), whether the [[session]] effect is still to
    run for the latest [setSession], the [openSession] calls suspended at
    each of its three [await]s, and the requests sent so far. *)
Record Runtime := {
  view : State;
  socket : option value;
  effect_due : bool;
  awaiting_position : nat;
  awaiting_start : nat;
  awaiting_view : nat;
  sent : list request
}.

Definition mount : Runtime :=
  {| view := initial; socket := None; effect_due := false;
     awaiting_position := 0; awaiting_start := 0; awaiting_view := 0;
     sent := [] |}.

Definition with_view (f : State → State) (w : Runtime) : Runtime :=
  {| view := f (view w); socket := socket w; effect_due := effect_due w;
     awaiting_position := awaiting_position w;
     awaiting_start := awaiting_start w;
     awaiting_view := awaiting_view w; sent := sent w |}.

(** [openSession], up to its first [await]. *)
Definition openSession_begin (w : Runtime) : Runtime :=
  {| view := view w; socket := socket w; effect_due := effect_due w;
     awaiting_position := S (awaiting_position w);
     awaiting_start := awaiting_start w;
     awaiting_view := awaiting_view w; sent := sent w |}.

(** [openSession], from the position to the [await fetch(.../start)]. *)
Definition openSession_position (p : Props) (lat lon : Qc) (w : Runtime) : Runtime :=
  {| view := view w; socket := socket w; effect_due := effect_due w;
     awaiting_position := pred (awaiting_position w);
     awaiting_start := S (awaiting_start w);
     awaiting_view := awaiting_view w;
     sent := sent w ++ [PostSessionStart (token p) (start_body (user p) lat lon)] |}.

(** [openSession], from [data] to the [await fetch(.../teacher-view)]:
    [setSession] makes the [[session]] effect due. *)
Definition openSession_started (p : Props) (data : obj) (w : Runtime) : Runtime :=
  {| view := setSession (session_of data) (view w);
     socket := socket w; effect_due := true;
     awaiting_position := awaiting_position w;
     awaiting_start := pred (awaiting_start w);
     awaiting_view := S (awaiting_view w);
     sent := sent w ++ [GetTeacherView (get data "sessionId") (token p)] |}.

(** [openSession], from [tvData] to its end: [tvData.students || []]. *)
Definition openSession_viewed (tv_students : option (list obj)) (w : Runtime) : Runtime :=
  {| view := setStudents (λ _, default [] tv_students) (view w);
     socket := socket w; effect_due := effect_due w;
     awaiting_position := awaiting_position w;
     awaiting_start := awaiting_start w;
     awaiting_view := pred (awaiting_view w); sent := sent w |}.

(** A rejected [await] in [openSession]: nothing catches it, the call ends. *)
Definition openSession_position_failed (w : Runtime) : Runtime :=
  {| view := view w; socket := socket w; effect_due := effect_due w;
     awaiting_position := pred (awaiting_position w);
     awaiting_start := awaiting_start w;
     awaiting_view := awaiting_view w; sent := sent w |}.
Definition openSession_start_failed (w : Runtime) : Runtime :=
  {| view := view w; socket := socket w; effect_due := effect_due w;
     awaiting_position := awaiting_position w;
     awaiting_start := pred (awaiting_start w);
     awaiting_view := awaiting_view w; sent := sent w |}.
Definition openSession_view_failed (w : Runtime) : Runtime :=
  {| view := view w; socket := socket w; effect_due := effect_due w;
     awaiting_position := awaiting_position w;
     awaiting_start := awaiting_start w;
     awaiting_view := pred (awaiting_view w); sent := sent w |}.

(** The [[session]] effect: the previous socket is disconnected by the
    cleanup; with a session, a new socket joins its room and gets the two
    listeners. *)
Definition session_effect (w : Runtime) : Runtime :=
  {| view := view w;
     socket := match session (view w) with
               | None => None
               | Some s => Some (get s "sessionId")
               end;
     effect_due := false;
     awaiting_position := awaiting_position w;
     awaiting_start := awaiting_start w;
     awaiting_view := awaiting_view w; sent := sent w |}.

(** [override(studentId, status)]. *)
Definition override (p : Props) (studentId : value) (status : string) (w : Runtime) : Runtime :=
  match session (view w) with
  | None => w
  | Some s =>
      {| view := view w; socket := socket w; effect_due := effect_due w;
         awaiting_position := awaiting_position w;
         awaiting_start := awaiting_start w;
         awaiting_view := awaiting_view w;
         sent := sent w ++ [PostOverride (get s "sessionId") (token p)
                              (override_body studentId status)] |}
  end.

Inductive event :=
| Accept                                     (* "I Agree" *)
| ClickOpen                                  (* "Open Attendance" *)
| PositionResolved (lat lon : Qc)
| PositionRejected
| StartResolved (data : obj)
| StartRejected
| ViewResolved (tv_students : option (list obj))
| ViewRejected
| EffectRun
| SocketEvent (name : string) (payload : obj)
| ClickMark (i : nat) (present : bool).     (* "Mark Present" / "Mark Absent" of row i *)

(** What an event runs in a mounted component; [None] when the browser
    cannot produce the event in [w]: the control is not rendered, no call is
    suspended there, no socket is connected. *)
Definition handle (p : Props) (w : Runtime) (e : event) : option Runtime :=
  match e with
  | Accept =>
      if consented (view w) then None else Some (with_view (setConsented true) w)
  | ClickOpen =>
      if consented (view w) && bool_decide (session (view w) = None)
      then Some (openSession_begin w) else None
  | PositionResolved lat lon =>
      if bool_decide (awaiting_position w = 0) then None
      else Some (openSession_position p lat lon w)
  | PositionRejected =>
      if bool_decide (awaiting_position w = 0) then None
      else Some (openSession_position_failed w)
  | StartResolved data =>
      if bool_decide (awaiting_start w = 0) then None
      else Some (openSession_started p data w)
  | StartRejected =>
      if bool_decide (awaiting_start w = 0) then None
      else Some (openSession_start_failed w)
  | ViewResolved tv =>
      if bool_decide (awaiting_view w = 0) then None
      else Some (openSession_viewed tv w)
  | ViewRejected =>
      if bool_decide (awaiting_view w = 0) then None
      else Some (openSession_view_failed w)
  | EffectRun =>
      if effect_due w then Some (session_effect w) else None
  | SocketEvent name payload =>
      match socket w with
      | None => None
      | Some _ => Some (with_view (setStudents (dispatch name payload)) w)
      end
  | ClickMark i present =>
      if consented (view w) && bool_decide (session (view w) ≠ None) then
        match students (view w) !! i with
        | None => None
        | Some st =>
            Some (override p (get st "userId")
                    (if present then "overridden_present" else "overridden_absent") w)
        end
      else None
  end.

(** One step: nothing happens any more once the render has thrown. *)
Definition step (p : Props) (w : Runtime) (e : event) : option Runtime :=
  if renders (view w) then handle p w e else None.

Fixpoint run (p : Props) (tr : list event) (w : Runtime) : option Runtime :=
  match tr with
  | [] => Some w
  | e :: tr' =>
      match step p w e with
      | None => None
      | Some w' => run p tr' w'
      end
  end.

(** The [userId]s of the rows, in order; the list has no two rows with
    the same ([===]) [userId] when they are pairwise distinct. *)
Definition ids (l : list obj) : list value := map (λ st, get st "userId") l.
Definition uniq_ids (l : list obj) : Prop := NoDup (ids l).

(** The row the ['attendance:uploaded'] listener builds from a payload. *)
Definition uploaded_row (payload : obj) (base : obj) : obj :=
  <["distance" := get payload "distance"]>
    (<["photoUrl" := get payload "photoUrl"]>
       (<["status" := VStr "uploaded"]> base)).

(** The row the ['attendance:overridden'] listener makes of a row. *)
Definition overridden_row (payload : obj) (st : obj) : obj :=
  if strict_eq (get st "userId") (get payload "userId")
  then <["status" := get payload "status"]> st else st.

End TeacherView.

(** ** StudentView *)

Module StudentView.

(** [useState] cells of the component. The socket of its effect gets no
    listener, so it never writes to them and is left out. *)
Record State := {
  consented : bool;
  sessionId : string;
  status : string;
  distance : value;
  allowed : bool;
  file : option File
}.

Definition initial : State :=
  {| consented := false; sessionId := ""; status := "idle";
     distance := VNull; allowed := false; file := None |}.

Definition setConsented (b : bool) (s : State) : State :=
  {| consented := b; sessionId := sessionId s; status := status s;
     distance := distance s; allowed := allowed s; file := file s |}.
Definition setSessionId (v : string) (s : State) : State :=
  {| consented := consented s; sessionId := v; status := status s;
     distance := distance s; allowed := allowed s; file := file s |}.
Definition setStatus (v : string) (s : State) : State :=
  {| consented := consented s; sessionId := sessionId s; status := v;
     distance := distance s; allowed := allowed s; file := file s |}.
Definition setDistance (v : value) (s : State) : State :=
  {| consented := consented s; sessionId := sessionId s; status := status s;
     distance := v; allowed := allowed s; file := file s |}.
Definition setAllowed (b : bool) (s : State) : State :=
  {| consented := consented s; sessionId := sessionId s; status := status s;
     distance := distance s; allowed := b; file := file s |}.
Definition setFile (f : option File) (s : State) : State :=
  {| consented := consented s; sessionId := sessionId s; status := status s;
     distance := distance s; allowed := allowed s; file := f |}.

(** Whether the component's JSX renders: [{distance}] is a child of the
    'too-far' message, the only place where a value of the state is one. *)
Definition renders (s : State) : bool :=
  negb (bool_decide (status s = "too-far")) || valid_child (distance s).

(** What the JSX renders, as far as it depends on the state. *)
Definition shows_too_far (s : State) : bool :=
  renders s && bool_decide (status s = "too-far").
Definition shows_loc_error (s : State) : bool := bool_decide (status s = "loc-error").
(** The block with the selfie file input and the Upload button: it is in
    the JSX exactly when [allowed]. (Along a run the render of a state with
    [allowed] does not throw: the status is then not 'too-far'.) *)
Definition shows_upload (s : State) : bool := allowed s.
(** [disabled={!file}] on the Upload button. *)
Definition upload_disabled (s : State) : bool := bool_decide (file s = None).

(** [pingLocation]: the first statement. *)
Definition pingLocation_first (s : State) : State := setStatus "checking" s.

(** [pingLocation]: the three setters after [const data = await res.json()]. *)
Definition pingLocation_then (data : obj) (s : State) : State :=
  setStatus (if truthy (get data "allowed") then "allowed" else "too-far")
    (setDistance (get data "distanceMeters")
       (setAllowed (truthy (get data "allowed")) s)).

(** [pingLocation]: the [catch] block. *)
Definition pingLocation_catch (s : State) : State := setStatus "loc-error" s.

(** [upload]: what follows [const data = await res.json()]. *)
Definition upload_then (data : obj) (s : State) : State :=
  if strict_eq (get data "status") (VStr "uploaded")
  then setStatus "uploaded" s else s.

(** The body of the POST in [pingLocation]. *)
Definition location_body (u : User) (lat lon : Qc) (now : string) : obj :=
  JSON_stringify
    (<["clientTimestamp" := VStr now]>
       (<["lon" := VNum lon]>
          (<["lat" := VNum lat]>
             (<["userId" := VStr (userId u)]> ∅)))).

(** The mounted component with the calls suspended at an [await]: each
    [pingLocation] waiting for a position keeps the [sessionId] of the
    render it was started from. *)
Record Runtime := {
  view : State;
  awaiting_position : list string;
  awaiting_location : nat;
  awaiting_selfie : nat;
  sent : list request
}.

Definition mount : Runtime :=
  {| view := initial; awaiting_position := []; awaiting_location := 0;
     awaiting_selfie := 0; sent := [] |}.

Definition with_view (f : State → State) (w : Runtime) : Runtime :=
  {| view := f (view w); awaiting_position := awaiting_position w;
     awaiting_location := awaiting_location w;
     awaiting_selfie := awaiting_selfie w; sent := sent w |}.

(** [pingLocation], up to [await new Promise(...getCurrentPosition...)]. *)
Definition pingLocation_begin (w : Runtime) : Runtime :=
  {| view := pingLocation_first (view w);
     awaiting_position := awaiting_position w ++ [sessionId (view w)];
     awaiting_location := awaiting_location w;
     awaiting_selfie := awaiting_selfie w; sent := sent w |}.

(** [pingLocation], from the position to [await fetch(.../location)]. *)
Definition pingLocation_position (p : Props) (i : nat) (lat lon : Qc) (now : string)
    (w : Runtime) : option Runtime :=
  match awaiting_position w !! i with
  | None => None
  | Some sid =>
      Some {| view := view w;
              awaiting_position := delete i (awaiting_position w);
              awaiting_location := S (awaiting_location w);
              awaiting_selfie := awaiting_selfie w;
              sent := sent w ++ [PostLocation sid (token p)
                                   (location_body (user p) lat lon now)] |}
  end.

(** [pingLocation]: the position promise rejects. *)
Definition pingLocation_position_failed (i : nat) (w : Runtime) : option Runtime :=
  match awaiting_position w !! i with
  | None => None
  | Some _ =>
      Some {| view := pingLocation_catch (view w);
              awaiting_position := delete i (awaiting_position w);
              awaiting_location := awaiting_location w;
              awaiting_selfie := awaiting_selfie w; sent := sent w |}
  end.

(** [pingLocation]: [data] arrives. *)
Definition pingLocation_response (data : obj) (w : Runtime) : Runtime :=
  {| view := pingLocation_then data (view w);
     awaiting_position := awaiting_position w;
     awaiting_location := pred (awaiting_location w);
     awaiting_selfie := awaiting_selfie w; sent := sent w |}.

(** [pingLocation]: [fetch] or [res.json()] rejects, or [data] is [null]
    and [data.allowed] throws. *)
Definition pingLocation_response_failed (w : Runtime) : Runtime :=
  {| view := pingLocation_catch (view w);
     awaiting_position := awaiting_position w;
     awaiting_location := pred (awaiting_location w);
     awaiting_selfie := awaiting_selfie w; sent := sent w |}.

(** [upload], up to [await fetch(.../selfie)]: [if (!file) return]. *)
Definition upload (p : Props) (w : Runtime) : Runtime :=
  match file (view w) with
  | None => w
  | Some f =>
      {| view := view w; awaiting_position := awaiting_position w;
         awaiting_location := awaiting_location w;
         awaiting_selfie := S (awaiting_selfie w);
         sent := sent w ++ [PostSelfie (sessionId (view w)) (token p) f] |}
  end.

(** [upload]: [data] arrives. *)
Definition upload_response (data : obj) (w : Runtime) : Runtime :=
  {| view := upload_then data (view w);
     awaiting_position := awaiting_position w;
     awaiting_location := awaiting_location w;
     awaiting_selfie := pred (awaiting_selfie w); sent := sent w |}.

(** [upload]: [fetch] or [res.json()] rejects, or [data] is [null];
    nothing catches it. *)
Definition upload_response_failed (w : Runtime) : Runtime :=
  {| view := view w; awaiting_position := awaiting_position w;
     awaiting_location := awaiting_location w;
     awaiting_selfie := pred (awaiting_selfie w); sent := sent w |}.

Inductive event :=
| Accept                                          (* "I Agree" *)
| TypeSession (v : string)                         (* the Session ID input *)
| ClickCheck                                      (* "Check distance" *)
| ClickRetry                                      (* "Retry" *)
| PositionResolved (i : nat) (lat lon : Qc) (now : string)
| PositionRejected (i : nat)
| LocationResolved (data : obj)
| LocationRejected
| PickFile (f : option File)                      (* the selfie file input *)
| ClickUpload                                     (* "Upload" *)
| SelfieResolved (data : obj)
| SelfieRejected.

(** What an event runs in a mounted component; [None] when the browser
    cannot produce the event in [w]. *)
Definition handle (p : Props) (w : Runtime) (e : event) : option Runtime :=
  match e with
  | Accept =>
      if consented (view w) then None else Some (with_view (setConsented true) w)
  | TypeSession v => Some (with_view (setSessionId v) w)
  | ClickCheck => Some (pingLocation_begin w)
  | ClickRetry =>
      if shows_too_far (view w) then Some (pingLocation_begin w) else None
  | PositionResolved i lat lon now => pingLocation_position p i lat lon now w
  | PositionRejected i => pingLocation_position_failed i w
  | LocationResolved data =>
      if bool_decide (awaiting_location w = 0%nat) then None
      else Some (pingLocation_response data w)
  | LocationRejected =>
      if bool_decide (awaiting_location w = 0%nat) then None
      else Some (pingLocation_response_failed w)
  | PickFile f =>
      if shows_upload (view w) then Some (with_view (setFile f) w) else None
  | ClickUpload =>
      if shows_upload (view w) && negb (upload_disabled (view w))
      then Some (upload p w) else None
  | SelfieResolved data =>
      if bool_decide (awaiting_selfie w = 0%nat) then None
      else Some (upload_response data w)
  | SelfieRejected =>
      if bool_decide (awaiting_selfie w = 0%nat) then None
      else Some (upload_response_failed w)
  end.

(** One step: nothing happens any more once the render has thrown. *)
Definition step (p : Props) (w : Runtime) (e : event) : option Runtime :=
  if renders (view w) then handle p w e else None.

Fixpoint run (p : Props) (tr : list event) (w : Runtime) : option Runtime :=
  match tr with
  | [] => Some w
  | e :: tr' =>
      match step p w e with
      | None => None
      | Some w' => run p tr' w'
      end
  end.

(** The proximity result the component received last: the [data] of the
    latest resolved location request of the trace, if any. *)
Fixpoint last_result (tr : list event) (acc : option obj) : option obj :=
  match tr with
  | [] => acc
  | LocationResolved data :: tr' => last_result tr' (Some data)
  | _ :: tr' => last_result tr' acc
  end.


(** Whether some proximity result of the trace had a truthy [allowed]. *)
Definition passed_once (tr : list event) : bool :=
  existsb (λ e, match e with
                | LocationResolved d => truthy (get d "allowed")
                | _ => false
                end) tr.

Definition allowed_by (r : option obj) : bool :=
  match r with
  | Some d => truthy (get d "allowed")
  | None => false
  end.

End StudentView.

(** ** Sample data for the concrete runs below *)

Module Samples.

Definition alice : User := {| userId := "s123"; role := "student"; name := "Alice" |}.
Definition bob : User := {| userId := "t1"; role := "teacher"; name := "Bob" |}.
Definition student_props : Props := {| token := VStr "tok-s"; user := alice |}.
Definition teacher_props : Props := {| token := VStr "tok-t"; user := bob |}.

Definition selfie : File := {| file_name := "selfie.jpg" |}.

(** Responses of POST .../location. *)
Definition near : obj :=
  <["allowed" := VBool true]> (<["distanceMeters" := num 3]> ∅).
Definition far : obj :=
  <["allowed" := VBool false]> (<["distanceMeters" := num 55]> ∅).

(** Responses of POST .../selfie. *)
Definition stored : obj := <["status" := VStr "uploaded"]> ∅.
Definition refused : obj := <["detail" := VStr "Not eligible"]> ∅.

(** A student checks in, is near, picks a selfie and uploads it. *)
Definition check_in_and_upload : list StudentView.event :=
  [ StudentView.TypeSession "sess_1";
    StudentView.ClickCheck;
    StudentView.PositionResolved 0 (Q2Qc 0) (Q2Qc 0) "2024-01-01T09:00:00.000Z";
    StudentView.LocationResolved near;
    StudentView.PickFile (Some selfie);
    StudentView.ClickUpload;
    StudentView.SelfieResolved stored ].

(** The same student checks the distance again and is now out of range. *)
Definition drift_away : list StudentView.event :=
  [ StudentView.ClickCheck;
    StudentView.PositionResolved 0 (Q2Qc 0) (Q2Qc 0) "2024-01-01T09:05:00.000Z";
    StudentView.LocationResolved far ].

(** Response of POST /api/session/start. *)
Definition started : obj :=
  <["sessionId" := VStr "sess_1"]>
    (<["startsAt" := VStr "2024-01-01T09:00:00Z"]>
       (<["expiresAt" := VStr "2024-01-01T09:15:00Z"]> ∅)).

(** Socket payloads as the client reads them. *)
Definition alice_uploaded : obj :=
  <["userId" := VStr "s123"]>
    (<["photoUrl" := VStr "/photos/s123.jpg"]> (<["distance" := num 3]> ∅)).
Definition alice_absent : obj :=
  <["userId" := VStr "s123"]> (<["status" := VStr "overridden_absent"]> ∅).
Definition carol_absent : obj :=
  <["userId" := VStr "s999"]> (<["status" := VStr "overridden_absent"]> ∅).

(** A payload with the field names of the written interface. *)
Definition alice_roster_event : obj :=
  <["userId" := VStr "s123"]>
    (<["status" := VStr "uploaded"]>
       (<["photoRef" := VStr "/photos/s123.jpg"]>
          (<["distanceMeters" := num 3]> ∅))).

(** Rows of a roster. *)
Definition alice_row : obj :=
  <["userId" := VStr "s123"]>
    (<["status" := VStr "location_checked"]> (<["distance" := num 4]> ∅)).
Definition dan_row : obj :=
  <["userId" := VStr "s456"]> (<["status" := VStr "too_far"]> ∅).

(** A teacher opens a session; the socket is subscribed and delivers an
    upload while the teacher-view request is still in flight. *)
Definition open_and_hear : list TeacherView.event :=
  [ TeacherView.Accept;
    TeacherView.ClickOpen;
    TeacherView.PositionResolved (Q2Qc 0) (Q2Qc 0);
    TeacherView.StartResolved started;
    TeacherView.EffectRun;
    TeacherView.SocketEvent "attendance:uploaded" alice_uploaded ].

(** The states reached by a sample run. *)
Definition student_after (tr : list StudentView.event) : StudentView.Runtime :=
  default StudentView.mount (StudentView.run student_props tr StudentView.mount).
Definition teacher_after (tr : list TeacherView.event) : TeacherView.Runtime :=
  default TeacherView.mount (TeacherView.run teacher_props tr TeacherView.mount).

(** The student of [check_in_and_upload]: waiting for the selfie request,
    and later waiting for the second location request. *)
Definition uploading : StudentView.Runtime :=
  student_after (take 6 check_in_and_upload).
Definition pinging_again : StudentView.Runtime :=
  student_after (check_in_and_upload ++ take 2 drift_away).
(** A student waiting for the first location request. *)
Definition pinging_first : StudentView.Runtime :=
  student_after (take 3 check_in_and_upload).

Definition roster : list obj := [alice_row; dan_row].

Definition hearing : TeacherView.Runtime := teacher_after open_and_hear.
Definition open_hear_view : list TeacherView.event :=
  open_and_hear ++ [TeacherView.ViewResolved (Some roster)].

End Samples.

(** ** App and useAuth *)

(** The body of the POST in [login]. *)
Definition login_body (u : User) : obj :=
  JSON_stringify
    (<["name" := VStr (name u)]>
       (<["role" := VStr (role u)]>
          (<["userId" := VStr (userId u)]> ∅))).

Module App.

(** [useState] cells of [useAuth] ([token], [user]) and of [App]. *)
Record State := {
  token : value;
  user : option User;
  role : string;
  userId : string;
  name : string
}.

Definition initial : State :=
  {| token := VNull; user := None; role := "student"; userId := "s123"; name := "Alice" |}.

Definition setToken (v : value) (s : State) : State :=
  {| token := v; user := user s; role := role s; userId := userId s; name := name s |}.
Definition setUser (u : User) (s : State) : State :=
  {| token := token s; user := Some u; role := role s; userId := userId s; name := name s |}.
Definition setRole (v : string) (s : State) : State :=
  {| token := token s; user := user s; role := v; userId := userId s; name := name s |}.
Definition setUserId (v : string) (s : State) : State :=
  {| token := token s; user := user s; role := role s; userId := v; name := name s |}.
Definition setName (v : string) (s : State) : State :=
  {| token := token s; user := user s; role := role s; userId := userId s; name := v |}.

(** What [App] returns: the login form, or one of the views with the
    [token] and [user] it is given. *)
Inductive screen :=
| LoginForm
| ShowTeacher (tok : value) (u : option User)
| ShowStudent (tok : value) (u : option User).

Definition render (s : State) : screen :=
  if negb (truthy (token s)) then LoginForm
  else if bool_decide (role s = "teacher")
       then ShowTeacher (token s) (user s)
       else ShowStudent (token s) (user s).

(** The component with the [login] calls suspended at an [await], each with
    its arguments, and the bodies of the login requests sent so far. *)
Record Runtime := {
  view : State;
  awaiting_login : list User;
  sent : list obj
}.

Definition mount : Runtime :=
  {| view := initial; awaiting_login := []; sent := [] |}.

Definition with_view (f : State → State) (w : Runtime) : Runtime :=
  {| view := f (view w); awaiting_login := awaiting_login w; sent := sent w |}.

(** [doLogin]: [login(userId, role, name)] up to [await fetch(...)]. *)
Definition login_begin (w : Runtime) : Runtime :=
  let u := Build_User (userId (view w)) (role (view w)) (name (view w)) in
  {| view := view w;
     awaiting_login := awaiting_login w ++ [u];
     sent := sent w ++ [login_body u] |}.

(** [login]: [data] arrives; [setToken(data.token)] and [setUser(...)]. *)
Definition login_response (i : nat) (data : obj) (w : Runtime) : option Runtime :=
  match awaiting_login w !! i with
  | None => None
  | Some u =>
      Some {| view := setUser u (setToken (get data "token") (view w));
              awaiting_login := delete i (awaiting_login w);
              sent := sent w |}
  end.

(** [login]: [fetch] or [res.json()] rejects, or [data] is [null]. *)
Definition login_failed (i : nat) (w : Runtime) : option Runtime :=
  match awaiting_login w !! i with
  | None => None
  | Some _ =>
      Some {| view := view w;
              awaiting_login := delete i (awaiting_login w);
              sent := sent w |}
  end.

Inductive event :=
| SelectRole (v : string)                  (* the Role select *)
| TypeUserId (v : string)
| TypeName (v : string)
| ClickLogin
| LoginResolved (i : nat) (data : obj)
| LoginRejected (i : nat).

(** The form exists only while [!token]; the select offers two values. *)
Definition form_rendered (s : State) : bool := negb (truthy (token s)).

Definition step (w : Runtime) (e : event) : option Runtime :=
  match e with
  | SelectRole v =>
      if form_rendered (view w)
         && (bool_decide (v = "teacher") || bool_decide (v = "student"))
      then Some (with_view (setRole v) w) else None
  | TypeUserId v =>
      if form_rendered (view w) then Some (with_view (setUserId v) w) else None
  | TypeName v =>
      if form_rendered (view w) then Some (with_view (setName v) w) else None
  | ClickLogin =>
      if form_rendered (view w) then Some (login_begin w) else None
  | LoginResolved i data => login_response i data w
  | LoginRejected i => login_failed i w
  end.

Fixpoint run (tr : list event) (w : Runtime) : option Runtime :=
  match tr with
  | [] => Some w
  | e :: tr' =>
      match step w e with
      | None => None
      | Some w' => run tr' w'
      end
  end.

(** The [data] of the latest resolved login of the trace, if any. *)
Fixpoint last_login (tr : list event) (acc : option obj) : option obj :=
  match tr with
  | [] => acc
  | LoginResolved _ data :: tr' => last_login tr' (Some data)
  | _ :: tr' => last_login tr' acc
  end.

End App.

(** ** More sample data *)

Module Scenarios.

(** A login as teacher whose response carries a token. *)
Definition granted : obj := <["token" := VStr "tok-t"]> ∅.
Definition teacher_login : list App.event :=
  [ App.SelectRole "teacher"; App.TypeUserId "t1"; App.TypeName "Bob";
    App.ClickLogin; App.LoginResolved 0 granted ].
Definition app_after (tr : list App.event) : App.Runtime :=
  default App.mount (App.run tr App.mount).

(** A student starts a check, edits the Session ID, and the position
    arrives afterwards. *)
Definition check_then_retype : list StudentView.event :=
  [ StudentView.TypeSession "sess_1"; StudentView.ClickCheck;
    StudentView.TypeSession "sess_2" ].

(** A roster with two rows of the same [userId]. *)
Definition alice_again : obj :=
  <["userId" := VStr "s123"]> (<["status" := VStr "too_far"]> ∅).
Definition doubled : list obj := [Samples.dan_row; Samples.alice_row; alice_again].

(** The teacher of [Samples.open_hear_view] marks the first row absent. *)
Definition view_and_mark : list TeacherView.event :=
  Samples.open_hear_view ++ [TeacherView.ClickMark 0 false].

End Scenarios.

(** * Properties of StudentView *)

Section Student.
Import StudentView.

(** A step is taken by a mounted component, and is what its handler does. *)
Lemma student_step_handle p w e w' :
  step p w e = Some w' → renders (view w) = true ∧ handle p w e = Some w'.
Proof. unfold step. by destruct (renders (view w)). Qed.

Local Ltac step_cases H :=
  apply student_step_handle in H as [_ H];
  unfold handle, pingLocation_position, pingLocation_position_failed in H;
  repeat (case_match; simplify_eq/=); simplify_eq/=.

(** Only a resolved location request writes [allowed]. *)
Lemma step_allowed p w e w' :
  step p w e = Some w' →
  allowed (view w') =
    match e with
    | LocationResolved d => truthy (get d "allowed")
    | _ => allowed (view w)
    end.
Proof.
  intros H. destruct e; step_cases H; try done.
  - unfold upload. by case_match.
  - unfold upload_then. by case_match.
Qed.

Lemma run_allowed p tr : ∀ w w' acc,
  run p tr w = Some w' →
  allowed (view w) = allowed_by acc →
  allowed (view w') = allowed_by (last_result tr acc).
Proof.
  induction tr as [|e tr IH]; intros w w' acc Hrun Hacc; simpl in *.
  - by simplify_eq.
  - destruct (step p w e) as [w1|] eqn:Hs; [|done].
    apply step_allowed in Hs.
    destruct e; apply (IH _ _ _ Hrun); simpl; congruence.
Qed.

(** Only [upload] sends a selfie, and only from a rendered, enabled button. *)
Lemma step_selfie p w e w' r :
  step p w e = Some w' → r ∈ sent w' → is_selfie r = true →
  r ∈ sent w ∨ (e = ClickUpload ∧ allowed (view w) = true).
Proof.
  intros H Hin Hr. destruct e; step_cases H; auto.
  - apply elem_of_app in Hin as [?|Hin]; [by left|].
    apply list_elem_of_singleton in Hin. by subst.
  - unfold shows_upload in *. right. split; [done|].
    by destruct (allowed (view w)).
Qed.

Lemma run_passed p tr : ∀ w w' (b : bool),
  run p tr w = Some w' →
  (allowed (view w) = true → b = true) →
  (∀ r, r ∈ sent w → is_selfie r = true → b = true) →
  (allowed (view w') = true → b || passed_once tr = true)
  ∧ (∀ r, r ∈ sent w' → is_selfie r = true → b || passed_once tr = true).
Proof.
  induction tr as [|e tr IH]; intros w w' b Hrun Ha Hs; simpl in *.
  - simplify_eq. rewrite orb_false_r. auto.
  - destruct (step p w e) as [w1|] eqn:Hstep; [|done].
    set (seen := match e with
                 | LocationResolved d => truthy (get d "allowed")
                 | _ => false
                 end).
    destruct (IH w1 w' (b || seen) Hrun) as [H1 H2].
    + intros Hw1. rewrite (step_allowed _ _ _ _ Hstep) in Hw1.
      subst seen. destruct e; rewrite ?orb_false_r; auto.
      rewrite Hw1. apply orb_true_r.
    + intros r Hin Hr.
      destruct (step_selfie _ _ _ _ _ Hstep Hin Hr) as [?|[-> Hw]].
      * rewrite (Hs r); auto.
      * rewrite Ha; auto.
    + rewrite <- orb_assoc in H1, H2. auto.
Qed.

(** C1, as the code has it: a proximity result whose [allowed] is not
    truthy sets the status to 'too-far' and [allowed] to false, so the
    upload block is no longer rendered; this holds from every earlier
    state, 'uploaded' included, and the reported distance is stored. *)
Theorem far_ping_overwrites_status p w data w' :
  truthy (get data "allowed") = false →
  step p w (LocationResolved data) = Some w' →
  status (view w') = "too-far"
  ∧ allowed (view w') = false
  ∧ shows_upload (view w') = false
  ∧ distance (view w') = get data "distanceMeters".
Proof.
  intros Hd H. step_cases H. by unfold shows_upload.
Qed.

(** C2: the upload block (selfie input and Upload button) is rendered
    exactly when the proximity result received last has a truthy
    [allowed]; the Upload click can reach [upload] only then; and while no
    result with a truthy [allowed] has arrived, the click is impossible and
    no selfie request has been sent. *)
Theorem upload_gated_by_proximity p tr w :
  run p tr mount = Some w →
  (shows_upload (view w) = true ↔
     ∃ d, last_result tr None = Some d ∧ truthy (get d "allowed") = true)
  ∧ (∀ w', step p w ClickUpload = Some w' →
       ∃ d, last_result tr None = Some d ∧ truthy (get d "allowed") = true)
  ∧ (passed_once tr = false →
       step p w ClickUpload = None ∧ ∀ r, r ∈ sent w → is_selfie r = false).
Proof.
  intros Hrun.
  pose proof (run_allowed p tr mount w None Hrun eq_refl) as Hal.
  assert (Hiff : allowed (view w) = true ↔
            ∃ d, last_result tr None = Some d ∧ truthy (get d "allowed") = true).
  { rewrite Hal. destruct (last_result tr None) as [d|]; simpl.
    - split; [eauto|]. by intros (d' & [= <-] & ?).
    - split; [done|]. by intros (? & ? & ?). }
  split; [exact Hiff|]. split.
  - intros w' Hs. apply Hiff. apply student_step_handle in Hs as [_ Hs].
    unfold handle, shows_upload in Hs.
    destruct (allowed (view w)); [done|]. by simpl in Hs.
  - intros Hnone.
    destruct (run_passed p tr mount w false Hrun) as [H1 H2].
    { done. } { intros r Hr. by apply elem_of_nil in Hr. }
    rewrite Hnone in H1, H2. simpl in *. split.
    + unfold step, handle, shows_upload.
      destruct (renders (view w)); [|done].
      destruct (allowed (view w)); [|done].
      by specialize (H1 eq_refl).
    + intros r Hr. destruct (is_selfie r) eqn:E; [|done].
      by specialize (H2 r Hr E).
Qed.

(** C5: when the location request resolves with [data], the client stores
    [data.distanceMeters] in [distance] and [!!data.allowed] in [allowed],
    and the status becomes 'allowed' or 'too-far' accordingly; 'too-far' is
    not the error status, and it renders the message with the Retry control
    whenever the stored distance can be rendered (it is not a plain object,
    for which the render throws). *)
Theorem ping_result_is_stored p w data w' :
  step p w (LocationResolved data) = Some w' →
  distance (view w') = get data "distanceMeters"
  ∧ allowed (view w') = truthy (get data "allowed")
  ∧ status (view w') = (if truthy (get data "allowed") then "allowed" else "too-far")
  ∧ status (view w') ≠ "loc-error"
  ∧ shows_loc_error (view w') = false
  ∧ renders (view w')
    = truthy (get data "allowed") || valid_child (get data "distanceMeters")
  ∧ shows_too_far (view w')
    = negb (truthy (get data "allowed")) && valid_child (get data "distanceMeters")
  ∧ (∀ b, get data "allowed" = VBool b →
       allowed (view w') = b
       ∧ status (view w') = if b then "allowed" else "too-far").
Proof.
  intros H. apply student_step_handle in H as [_ H].
  unfold handle in H. case_bool_decide; simplify_eq.
  unfold shows_loc_error, shows_too_far, renders. simpl.
  split_and!;
    try (by destruct (truthy (get data "allowed")),
              (valid_child (get data "distanceMeters"))).
  intros b Hb. by rewrite Hb.
Qed.

(** C7: [upload] without a selected file sends nothing and changes
    nothing; with a file it sends the request and leaves the state as it is,
    and so does the Upload click; when the request resolves with
    [data.status === 'uploaded'] the status becomes 'uploaded' and nothing
    else changes; with any other [data], and when the request fails, the
    state is left as it was. *)
Theorem upload_all_or_nothing p w data :
  (file (view w) = None → upload p w = w)
  ∧ view (upload p w) = view w
  ∧ (∀ w', step p w ClickUpload = Some w' → w' = upload p w ∧ view w' = view w)
  ∧ (get data "status" = VStr "uploaded" →
       view (upload_response data w) = setStatus "uploaded" (view w)
       ∧ status (view (upload_response data w)) = "uploaded"
       ∧ distance (view (upload_response data w)) = distance (view w)
       ∧ allowed (view (upload_response data w)) = allowed (view w)
       ∧ view (upload_response data (upload p w)) = setStatus "uploaded" (view w))
  ∧ (get data "status" ≠ VStr "uploaded" →
       view (upload_response data w) = view w
       ∧ view (upload_response data (upload p w)) = view w)
  ∧ view (upload_response_failed w) = view w
  ∧ view (upload_response_failed (upload p w)) = view w.
Proof.
  assert (Hup : view (upload p w) = view w).
  { unfold upload. by destruct (file (view w)). }
  split_and!.
  - intros Hf. unfold upload. by rewrite Hf.
  - exact Hup.
  - intros w' Hs. apply student_step_handle in Hs as [_ Hs].
    unfold handle in Hs. case_match; [|done]. by simplify_eq.
  - intros Hd. simpl. rewrite Hup. unfold upload_then, strict_eq.
    by rewrite bool_decide_eq_true_2.
  - intros Hne. simpl. rewrite Hup. unfold upload_then, strict_eq.
    by rewrite bool_decide_eq_false_2.
  - done.
  - exact Hup.
Qed.

(** C10: no step of a [pingLocation] that fails writes [allowed] or
    [distance]: not its start, not the arrival of the position (which sends
    the request), not the failure of the position read or of the request;
    the failure sets the status to 'loc-error'. So after a ping that failed
    at the position read, or at the request, [allowed] and [distance] are
    what they were before it, and an upload block that was rendered stays
    rendered. *)
Theorem failed_ping_keeps_upload_window p w :
  (∀ e w',
     e = ClickCheck ∨ e = ClickRetry
     ∨ (∃ i lat lon now, e = PositionResolved i lat lon now)
     ∨ (∃ i, e = PositionRejected i) ∨ e = LocationRejected →
     step p w e = Some w' →
     allowed (view w') = allowed (view w)
     ∧ distance (view w') = distance (view w)
     ∧ shows_upload (view w') = shows_upload (view w)
     ∧ ((∃ i, e = PositionRejected i) ∨ e = LocationRejected →
          status (view w') = "loc-error"))
  ∧ (∀ i w', run p [ClickCheck; PositionRejected i] w = Some w' →
       status (view w') = "loc-error"
       ∧ allowed (view w') = allowed (view w)
       ∧ distance (view w') = distance (view w)
       ∧ shows_upload (view w') = shows_upload (view w))
  ∧ (∀ i lat lon now w',
       run p [ClickCheck; PositionResolved i lat lon now; LocationRejected] w = Some w' →
       status (view w') = "loc-error"
       ∧ allowed (view w') = allowed (view w)
       ∧ distance (view w') = distance (view w)
       ∧ shows_upload (view w') = shows_upload (view w)).
Proof.
  assert (Hstep : ∀ w0 e w',
     e = ClickCheck ∨ e = ClickRetry
     ∨ (∃ i lat lon now, e = PositionResolved i lat lon now)
     ∨ (∃ i, e = PositionRejected i) ∨ e = LocationRejected →
     step p w0 e = Some w' →
     allowed (view w') = allowed (view w0)
     ∧ distance (view w') = distance (view w0)
     ∧ shows_upload (view w') = shows_upload (view w0)
     ∧ ((∃ i, e = PositionRejected i) ∨ e = LocationRejected →
          status (view w') = "loc-error")).
  { intros w0 e w' He H.
    destruct He as [-> | [-> | [(i & lat & lon & now & ->) | [[i ->] | ->]]]];
      step_cases H; split_and!; try done.
    all: intros [[? ?]|?]; done. }
  split_and!.
  - apply Hstep.
  - intros i w' Hrun. cbn [run] in Hrun.
    destruct (step p w ClickCheck) as [w1|] eqn:H1; [|done].
    destruct (step p w1 (PositionRejected i)) as [w2|] eqn:H2; [|done].
    simplify_eq.
    destruct (Hstep _ _ _ (or_introl eq_refl) H1) as (A1 & B1 & C1 & _).
    destruct (Hstep w1 (PositionRejected i) w') as (A2 & B2 & C2 & D2);
      [right; right; right; left; by exists i|done|].
    split_and!; [apply D2; left; by exists i|congruence|congruence|congruence].
  - intros i lat lon now w' Hrun. cbn [run] in Hrun.
    destruct (step p w ClickCheck) as [w1|] eqn:H1; [|done].
    destruct (step p w1 (PositionResolved i lat lon now)) as [w2|] eqn:H2; [|done].
    destruct (step p w2 LocationRejected) as [w3|] eqn:H3; [|done].
    simplify_eq.
    destruct (Hstep _ _ _ (or_introl eq_refl) H1) as (A1 & B1 & C1 & _).
    destruct (Hstep w1 (PositionResolved i lat lon now) w2) as (A2 & B2 & C2 & _);
      [right; right; left; by exists i, lat, lon, now|done|].
    destruct (Hstep w2 LocationRejected w') as (A3 & B3 & C3 & D3);
      [by repeat right|done|].
    split_and!; [apply D3; by right|congruence|congruence|congruence].
Qed.

Import Samples.

(** C1 fails on the code: after the status has become 'uploaded' with the
    upload block rendered, a later location check whose result has
    [allowed = false] leaves the status at 'too-far' and the upload block
    gone. *)
Lemma far_ping_after_upload_regresses :
  (λ w, (status (view w), shows_upload (view w)))
    <$> run student_props check_in_and_upload mount = Some ("uploaded", true)
  ∧ get far "allowed" = VBool false
  ∧ (λ w, (status (view w), shows_upload (view w)))
      <$> run student_props (check_in_and_upload ++ drift_away) mount
    = Some ("too-far", false).
Proof. split_and!; vm_compute; reflexivity. Qed.

(** The student who has uploaded checks the distance again and is far. *)
Lemma far_ping_overwrites_status_witness :
  truthy (get far "allowed") = false
  ∧ step student_props pinging_again (LocationResolved far)
    = Some (pingLocation_response far pinging_again)
  ∧ status (view (pingLocation_response far pinging_again)) = "too-far"
  ∧ allowed (view (pingLocation_response far pinging_again)) = false
  ∧ shows_upload (view (pingLocation_response far pinging_again)) = false
  ∧ distance (view (pingLocation_response far pinging_again))
    = get far "distanceMeters".
Proof.
  assert (H1 : truthy (get far "allowed") = false) by (vm_compute; reflexivity).
  assert (H2 : step student_props pinging_again (LocationResolved far)
               = Some (pingLocation_response far pinging_again))
    by (vm_compute; reflexivity).
  split; [exact H1|]. split; [exact H2|].
  exact (far_ping_overwrites_status _ _ _ _ H1 H2).
Defined.

(** After a near result, the upload block is rendered. *)
Lemma upload_gated_by_proximity_witness :
  run student_props check_in_and_upload mount
  = Some (student_after check_in_and_upload)
  ∧ (shows_upload (view (student_after check_in_and_upload)) = true ↔
       ∃ d, last_result check_in_and_upload None = Some d
            ∧ truthy (get d "allowed") = true).
Proof.
  assert (H1 : run student_props check_in_and_upload mount
               = Some (student_after check_in_and_upload))
    by (vm_compute; reflexivity).
  split; [exact H1|].
  exact (proj1 (upload_gated_by_proximity _ _ _ H1)).
Defined.

(** A first location request resolves with a near result. *)
Lemma ping_result_is_stored_witness :
  step student_props pinging_first (LocationResolved near)
  = Some (pingLocation_response near pinging_first)
  ∧ distance (view (pingLocation_response near pinging_first))
    = get near "distanceMeters"
  ∧ allowed (view (pingLocation_response near pinging_first))
    = truthy (get near "allowed").
Proof.
  assert (H1 : step student_props pinging_first (LocationResolved near)
               = Some (pingLocation_response near pinging_first))
    by (vm_compute; reflexivity).
  split; [exact H1|].
  destruct (ping_result_is_stored _ _ _ _ H1) as (Hd & Ha & _).
  exact (conj Hd Ha).
Defined.

(** No file at mount; the Upload click with a file picked; a stored and a
    refused selfie response. *)
Lemma upload_all_or_nothing_witness :
  file (view mount) = None
  ∧ upload student_props mount = mount
  ∧ step student_props (student_after (take 5 check_in_and_upload)) ClickUpload
    = Some uploading
  ∧ view uploading = view (student_after (take 5 check_in_and_upload))
  ∧ get stored "status" = VStr "uploaded"
  ∧ status (view (upload_response stored uploading)) = "uploaded"
  ∧ allowed (view (upload_response stored uploading)) = allowed (view uploading)
  ∧ get refused "status" ≠ VStr "uploaded"
  ∧ view (upload_response refused uploading) = view uploading.
Proof.
  assert (H1 : file (view mount) = None) by reflexivity.
  assert (H2 : get stored "status" = VStr "uploaded") by (vm_compute; reflexivity).
  assert (H3 : get refused "status" ≠ VStr "uploaded").
  { intros H. vm_compute in H. discriminate H. }
  assert (H4 : step student_props (student_after (take 5 check_in_and_upload)) ClickUpload
               = Some uploading) by (vm_compute; reflexivity).
  destruct (upload_all_or_nothing student_props mount stored) as (A & _).
  destruct (upload_all_or_nothing student_props
              (student_after (take 5 check_in_and_upload)) stored)
    as (_ & _ & S & _).
  destruct (upload_all_or_nothing student_props uploading stored)
    as (_ & _ & _ & B & _).
  destruct (upload_all_or_nothing student_props uploading refused)
    as (_ & _ & _ & _ & C & _).
  destruct (B H2) as (_ & Bs & _ & Ba & _).
  destruct (S _ H4) as (_ & Sv).
  destruct (C H3) as (Cv & _).
  split_and!;
    [exact H1|exact (A H1)|exact H4|exact Sv|exact H2|exact Bs|exact Ba|exact H3|exact Cv].
Defined.

(** The uploaded student checks again and the request fails. *)
Lemma failed_ping_keeps_upload_window_witness :
  run student_props
    [ClickCheck; PositionResolved 0 (Q2Qc 0%Q) (Q2Qc 0%Q) "2024-01-01T09:05:00.000Z"; LocationRejected]
    (student_after check_in_and_upload)
  = Some (pingLocation_response_failed pinging_again)
  ∧ shows_upload (view (student_after check_in_and_upload)) = true
  ∧ status (view (pingLocation_response_failed pinging_again)) = "loc-error"
  ∧ allowed (view (pingLocation_response_failed pinging_again))
    = allowed (view (student_after check_in_and_upload))
  ∧ distance (view (pingLocation_response_failed pinging_again))
    = distance (view (student_after check_in_and_upload))
  ∧ shows_upload (view (pingLocation_response_failed pinging_again))
    = shows_upload (view (student_after check_in_and_upload)).
Proof.
  assert (H1 : run student_props
    [ClickCheck; PositionResolved 0 (Q2Qc 0%Q) (Q2Qc 0%Q) "2024-01-01T09:05:00.000Z"; LocationRejected]
    (student_after check_in_and_upload)
    = Some (pingLocation_response_failed pinging_again))
    by (vm_compute; reflexivity).
  destruct (failed_ping_keeps_upload_window student_props
              (student_after check_in_and_upload)) as (_ & _ & A).
  destruct (A _ _ _ _ _ H1) as (A1 & A2 & A3 & A4).
  split_and!; [exact H1|vm_compute; reflexivity|exact A1|exact A2|exact A3|exact A4].
Defined.

End Student.

(** * Properties of TeacherView *)

Section Teacher.
Import TeacherView.

(** A step is taken by a mounted component, and is what its handler does. *)
Lemma teacher_step_handle p w e w' :
  step p w e = Some w' → renders (view w) = true ∧ handle p w e = Some w'.
Proof. unfold step. by destruct (renders (view w)). Qed.

(** [findIndex] returns [-1] when no element satisfies [f], and otherwise
    the position of the first one that does. *)
Lemma findIndex_from_spec {A} (f : A → bool) (l : list A) : ∀ i : Z,
  (findIndex_from f i l = (-1)%Z ∧ Forall (λ x, f x = false) l)
  ∨ (∃ n x, findIndex_from f i l = (i + Z.of_nat n)%Z
            ∧ l !! n = Some x ∧ f x = true
            ∧ Forall (λ y, f y = false) (take n l)).
Proof.
  induction l as [|a l IH]; intros i; simpl.
  - left. by split.
  - destruct (f a) eqn:Ha.
    + right. exists 0%nat, a. split_and!; [lia|done|done|constructor].
    + destruct (IH (i + 1)%Z) as [(E & HF)|(n & x & E & Hl & Hx & HF)].
      * left. split; [done|by constructor].
      * right. exists (S n), x. split_and!; [lia|done|done|by constructor].
Qed.

Lemma findIndex_spec {A} (f : A → bool) (l : list A) :
  ((findIndex f l < 0)%Z ∧ Forall (λ x, f x = false) l)
  ∨ (∃ n x, findIndex f l = Z.of_nat n ∧ l !! n = Some x ∧ f x = true
            ∧ Forall (λ y, f y = false) (take n l)).
Proof.
  unfold findIndex.
  destruct (findIndex_from_spec f l 0) as [(E & HF)|(n & x & E & H)].
  - left. split; [lia|done].
  - right. exists n, x. by rewrite E.
Qed.

Lemma strict_eq_true a b : strict_eq a b = true ↔ a = b.
Proof. unfold strict_eq. apply bool_decide_eq_true. Qed.

Lemma strict_eq_false a b : strict_eq a b = false ↔ a ≠ b.
Proof. unfold strict_eq. apply bool_decide_eq_false. Qed.

Lemma get_insert_eq (o : obj) k v : get (<[k := v]> o) k = v.
Proof. unfold get. by rewrite lookup_insert_eq. Qed.

Lemma get_insert_ne (o : obj) k k' v : k ≠ k' → get (<[k := v]> o) k' = get o k'.
Proof. intros. unfold get. by rewrite lookup_insert_ne. Qed.

Lemma uploaded_row_userId payload base :
  get (uploaded_row payload base) "userId" = get base "userId".
Proof. unfold uploaded_row. by rewrite !get_insert_ne. Qed.

Lemma overridden_row_userId payload st :
  get (overridden_row payload st) "userId" = get st "userId".
Proof.
  unfold overridden_row. case_match; [|done]. by rewrite get_insert_ne.
Qed.

Lemma not_in_ids (v : value) (l : list obj) :
  Forall (λ x, strict_eq (get x "userId") v = false) l ↔ v ∉ ids l.
Proof.
  unfold ids. rewrite Forall_forall, list_elem_of_fmap. split.
  - intros H (x & -> & Hx). apply H in Hx. by apply strict_eq_false in Hx.
  - intros H x Hx. apply strict_eq_false. intros <-. apply H. eauto.
Qed.

(** The uploaded listener, when some row has the payload's [userId]:
    the first such row is rewritten in place. *)
Lemma on_uploaded_found payload l :
  get payload "userId" ∈ ids l →
  ∃ n st, l !! n = Some st
          ∧ get st "userId" = get payload "userId"
          ∧ (get payload "userId" ∉ ids (take n l))
          ∧ on_uploaded payload l = <[n := uploaded_row payload st]> l.
Proof.
  intros Hin. unfold on_uploaded.
  destruct (findIndex_spec (λ x, strict_eq (get x "userId") (get payload "userId")) l)
    as [[_ HF]|(n & st & E & Hl & Hst & HF)].
  - by apply not_in_ids in HF.
  - exists n, st. rewrite E, Nat2Z.id, Hl.
    destruct (Z.leb_spec 0 (Z.of_nat n)); [|lia].
    split_and!; [done|by apply strict_eq_true|by apply not_in_ids|done].
Qed.

(** The uploaded listener, when no row has the payload's [userId]:
    a new row is put in front. *)
Lemma on_uploaded_fresh payload l :
  get payload "userId" ∉ ids l →
  on_uploaded payload l =
    uploaded_row payload (<["userId" := get payload "userId"]> ∅) :: l.
Proof.
  intros Hnot. unfold on_uploaded.
  destruct (findIndex_spec (λ x, strict_eq (get x "userId") (get payload "userId")) l)
    as [[Hlt _]|(n & st & E & Hl & Hst & HF)].
  - destruct (Z.leb_spec 0 (findIndex
      (λ x, strict_eq (get x "userId") (get payload "userId")) l)); [lia|done].
  - exfalso. apply Hnot. apply strict_eq_true in Hst. rewrite <- Hst.
    unfold ids. apply list_elem_of_fmap. exists st. split; [done|].
    by eapply list_elem_of_lookup_2.
Qed.

Lemma ids_on_uploaded_found payload l :
  get payload "userId" ∈ ids l → ids (on_uploaded payload l) = ids l.
Proof.
  intros Hin. destruct (on_uploaded_found _ _ Hin) as (n & st & Hl & Hst & _ & ->).
  unfold ids. rewrite list_fmap_insert, uploaded_row_userId.
  apply list_insert_id. by rewrite list_lookup_fmap, Hl.
Qed.

Lemma ids_on_overridden payload l : ids (on_overridden payload l) = ids l.
Proof.
  unfold ids, on_overridden. rewrite <- list_fmap_compose.
  apply list_fmap_ext. intros i x _. apply (overridden_row_userId payload x).
Qed.

Lemma on_uploaded_uniq payload l : uniq_ids l → uniq_ids (on_uploaded payload l).
Proof.
  intros Hl. unfold uniq_ids.
  destruct (decide (get payload "userId" ∈ ids l)) as [Hin|Hnot].
  - by rewrite ids_on_uploaded_found.
  - rewrite on_uploaded_fresh by done. simpl.
    rewrite uploaded_row_userId, get_insert_eq. by constructor.
Qed.

Lemma on_overridden_uniq payload l : uniq_ids l → uniq_ids (on_overridden payload l).
Proof. unfold uniq_ids. by rewrite ids_on_overridden. Qed.

Lemma dispatch_cases name payload l :
  dispatch name payload l =
    if decide (name = "attendance:uploaded") then on_uploaded payload l
    else if decide (name = "attendance:overridden") then on_overridden payload l
    else l.
Proof.
  unfold dispatch, listeners. simpl.
  repeat case_decide; repeat case_bool_decide; simplify_eq; done.
Qed.

Lemma dispatch_uniq name payload l : uniq_ids l → uniq_ids (dispatch name payload l).
Proof.
  intros H. rewrite dispatch_cases.
  repeat case_decide; auto using on_uploaded_uniq, on_overridden_uniq.
Qed.

Local Ltac step_cases H :=
  apply teacher_step_handle in H as [_ H];
  unfold handle in H; repeat (case_match; simplify_eq/=); simplify_eq/=.

(** Which steps write the roster. *)
Lemma step_students p w e w' :
  step p w e = Some w' →
  students (view w') =
    match e with
    | ViewResolved tv => default [] tv
    | SocketEvent name payload => dispatch name payload (students (view w))
    | _ => students (view w)
    end.
Proof.
  intros H. destruct e; step_cases H; try done.
  all: unfold override; by repeat case_match.
Qed.

Lemma run_uniq p tr : ∀ w w',
  run p tr w = Some w' →
  (∀ l, ViewResolved (Some l) ∈ tr → uniq_ids l) →
  uniq_ids (students (view w)) →
  uniq_ids (students (view w')).
Proof.
  induction tr as [|e tr IH]; intros w w' Hrun Hsnap Hw; simpl in *.
  - by simplify_eq.
  - destruct (step p w e) as [w1|] eqn:Hs; [|done].
    apply (IH w1 w' Hrun).
    + intros l Hl. apply Hsnap. by right.
    + rewrite (step_students _ _ _ _ Hs). destruct e; try done.
      * destruct tv_students as [l|]; simpl.
        -- apply Hsnap. left.
        -- constructor.
      * by apply dispatch_uniq.
Qed.

(** C8: the roster list never holds two rows with the same [userId],
    provided every snapshot applied to it has pairwise distinct
    [userId]s. Both listeners keep the [userId]s distinct: the uploaded
    listener leaves the [userId]s as they are when one matches (it rewrites
    that row in place) and puts one new row in front when none matches; the
    overridden listener maps over the rows and keeps every [userId]. *)
Theorem roster_ids_stay_unique p tr w :
  run p tr mount = Some w →
  (∀ l, ViewResolved (Some l) ∈ tr → uniq_ids l) →
  let l := students (view w) in
  uniq_ids l
  ∧ ∀ payload,
      uniq_ids (on_uploaded payload l)
      ∧ uniq_ids (on_overridden payload l)
      ∧ (get payload "userId" ∈ ids l →
           ids (on_uploaded payload l) = ids l
           ∧ length (on_uploaded payload l) = length l)
      ∧ (get payload "userId" ∉ ids l →
           on_uploaded payload l =
             uploaded_row payload (<["userId" := get payload "userId"]> ∅) :: l)
      ∧ ids (on_overridden payload l) = ids l.
Proof.
  intros Hrun Hsnap l.
  assert (Hl : uniq_ids l).
  { apply (run_uniq p tr mount w Hrun Hsnap). constructor. }
  split; [done|]. intros payload. split_and!.
  - by apply on_uploaded_uniq.
  - by apply on_overridden_uniq.
  - intros Hin. split; [by apply ids_on_uploaded_found|].
    destruct (on_uploaded_found _ _ Hin) as (n & st & _ & _ & _ & ->).
    apply length_insert.
  - apply on_uploaded_fresh.
  - apply ids_on_overridden.
Qed.

(** C9: an override for a [userId] that no row has leaves the list as it
    is; in every case the list keeps its length, a row with another
    [userId] is unchanged, and a row with the payload's [userId] differs
    from the old row in its [status] only, which becomes the payload's. *)
Theorem override_touches_only_matching_status payload (l : list obj) :
  (get payload "userId" ∉ ids l → on_overridden payload l = l)
  ∧ length (on_overridden payload l) = length l
  ∧ ∀ i st, l !! i = Some st →
      ∃ st', on_overridden payload l !! i = Some st'
        ∧ (get st "userId" ≠ get payload "userId" → st' = st)
        ∧ (get st "userId" = get payload "userId" →
             st' = <["status" := get payload "status"]> st
             ∧ get st' "status" = get payload "status"
             ∧ ∀ k, k ≠ "status" → st' !! k = st !! k).
Proof.
  split_and!.
  - intros Hnot. apply not_in_ids in Hnot. unfold on_overridden.
    induction Hnot as [|x l Hx _ IH]; simpl; [done|].
    by rewrite Hx, IH.
  - unfold on_overridden. apply length_map.
  - intros i st Hi. unfold on_overridden.
    change (map ?f l) with (f <$> l). rewrite list_lookup_fmap, Hi. simpl.
    eexists. split; [done|]. split.
    + intros Hne. apply strict_eq_false in Hne. by rewrite Hne.
    + intros Heq. apply strict_eq_true in Heq. rewrite Heq.
      split_and!; [done|apply get_insert_eq|].
      intros k Hk. by rewrite lookup_insert_ne.
Qed.









(** C4, as the code has it: the subscription has exactly two listeners,
    named 'attendance:uploaded' and 'attendance:overridden', each with its
    own updater, and a message of any other name changes nothing. The
    uploaded listener reads [userId], [photoUrl] and [distance] of the
    payload and writes the constant status 'uploaded'; the overridden
    listener reads [userId] and [status]. *)
Theorem teacher_listens_to_two_attendance_events name payload (l : list obj) :
  map fst listeners = ["attendance:uploaded"; "attendance:overridden"]
  ∧ dispatch name payload l =
      (if decide (name = "attendance:uploaded") then on_uploaded payload l
       else if decide (name = "attendance:overridden") then on_overridden payload l
       else l)
  ∧ (∀ payload',
       get payload' "userId" = get payload "userId" →
       get payload' "photoUrl" = get payload "photoUrl" →
       get payload' "distance" = get payload "distance" →
       on_uploaded payload' l = on_uploaded payload l)
  ∧ (∀ payload',
       get payload' "userId" = get payload "userId" →
       get payload' "status" = get payload "status" →
       on_overridden payload' l = on_overridden payload l)
  ∧ (∀ st, st ∈ on_uploaded payload l →
       st ∈ l ∨ (get st "status" = VStr "uploaded"
                 ∧ get st "photoUrl" = get payload "photoUrl"
                 ∧ get st "distance" = get payload "distance")).
Proof.
  split_and!.
  - done.
  - apply dispatch_cases.
  - intros payload' H1 H2 H3. unfold on_uploaded. by rewrite H1, H2, H3.
  - intros payload' H1 H2. unfold on_overridden. by rewrite H1, H2.
  - intros st Hst.
    assert (Hrow : ∀ base, get (uploaded_row payload base) "status" = VStr "uploaded"
              ∧ get (uploaded_row payload base) "photoUrl" = get payload "photoUrl"
              ∧ get (uploaded_row payload base) "distance" = get payload "distance").
    { intros base. unfold uploaded_row. split_and!.
      - rewrite (get_insert_ne _ "distance"), (get_insert_ne _ "photoUrl") by done.
        apply get_insert_eq.
      - rewrite (get_insert_ne _ "distance") by done. apply get_insert_eq.
      - apply get_insert_eq. }
    destruct (decide (get payload "userId" ∈ ids l)) as [Hin|Hnot].
    + destruct (on_uploaded_found _ _ Hin) as (n & st0 & Hl & _ & _ & E).
      rewrite E in Hst. apply list_elem_of_lookup in Hst as [i Hi].
      destruct (decide (i = n)) as [->|Hne].
      * rewrite list_lookup_insert_eq in Hi by by eapply lookup_lt_Some.
        simplify_eq. right. apply Hrow.
      * rewrite list_lookup_insert_ne in Hi by done.
        left. by eapply list_elem_of_lookup_2.
    + rewrite on_uploaded_fresh in Hst by done.
      apply elem_of_cons in Hst as [->|?]; [right; apply Hrow|by left].
Qed.

Import Samples.


(** C4 fails on the code: messages named [roster_updated] and
    [roster_overridden] reach no listener, and a payload carrying
    [photoRef] and [distanceMeters] yields a row without photo and
    distance, because the listener reads [photoUrl] and [distance]. *)
Lemma interface_event_names_are_not_heard :
  dispatch "roster_updated" alice_roster_event [] = []
  ∧ dispatch "roster_overridden" alice_absent [alice_row] = [alice_row]
  ∧ map (λ st, get st "status")
      (dispatch "attendance:overridden" alice_absent [alice_row])
    = [VStr "overridden_absent"]
  ∧ map (λ st, (get st "userId", get st "photoUrl", get st "distance"))
      (dispatch "attendance:uploaded" alice_roster_event [])
    = [(VStr "s123", VUndefined, VUndefined)].
Proof. split_and!; vm_compute; reflexivity. Qed.


(** A payload with an extra [status] property is treated like the plain one. *)
Lemma teacher_listens_to_two_attendance_events_witness :
  get (<["status" := VStr "x"]> alice_uploaded) "userId" = get alice_uploaded "userId"
  ∧ get (<["status" := VStr "x"]> alice_uploaded) "photoUrl" = get alice_uploaded "photoUrl"
  ∧ get (<["status" := VStr "x"]> alice_uploaded) "distance" = get alice_uploaded "distance"
  ∧ on_uploaded (<["status" := VStr "x"]> alice_uploaded) roster
    = on_uploaded alice_uploaded roster
  ∧ dispatch "attendance:uploaded" alice_uploaded roster
    = (if decide ("attendance:uploaded" = "attendance:uploaded")
       then on_uploaded alice_uploaded roster
       else if decide ("attendance:uploaded" = "attendance:overridden")
            then on_overridden alice_uploaded roster
            else roster).
Proof.
  assert (H1 : get (<["status" := VStr "x"]> alice_uploaded) "userId"
               = get alice_uploaded "userId") by (vm_compute; reflexivity).
  assert (H2 : get (<["status" := VStr "x"]> alice_uploaded) "photoUrl"
               = get alice_uploaded "photoUrl") by (vm_compute; reflexivity).
  assert (H3 : get (<["status" := VStr "x"]> alice_uploaded) "distance"
               = get alice_uploaded "distance") by (vm_compute; reflexivity).
  destruct (teacher_listens_to_two_attendance_events
              "attendance:uploaded" alice_uploaded roster) as (_ & A & B & _).
  split_and!; [exact H1|exact H2|exact H3|exact (B _ H1 H2 H3)|exact A].
Defined.


(** A run with one snapshot of two rows. *)
Lemma roster_ids_stay_unique_witness :
  run teacher_props open_hear_view mount = Some (teacher_after open_hear_view)
  ∧ (∀ l, ViewResolved (Some l) ∈ open_hear_view → uniq_ids l)
  ∧ uniq_ids (students (view (teacher_after open_hear_view)))
  ∧ uniq_ids (on_uploaded alice_uploaded (students (view (teacher_after open_hear_view)))).
Proof.
  assert (H1 : run teacher_props open_hear_view mount
               = Some (teacher_after open_hear_view)) by (vm_compute; reflexivity).
  assert (H2 : ∀ l, ViewResolved (Some l) ∈ open_hear_view → uniq_ids l).
  { intros l Hl. unfold open_hear_view, open_and_hear in Hl. cbn [app] in Hl.
    repeat (apply elem_of_cons in Hl as [Hl|Hl]; [try discriminate Hl|]).
    - assert (l = roster) as -> by congruence.
      unfold uniq_ids. apply (bool_decide_unpack _). vm_compute. exact I.
    - apply elem_of_nil in Hl. destruct Hl. }
  destruct (roster_ids_stay_unique _ _ _ H1 H2) as (A & B).
  destruct (B alice_uploaded) as (B1 & _).
  split_and!; [exact H1|exact H2|exact A|exact B1].
Defined.

(** Overrides for an unknown student and for the first row of a roster. *)
Lemma override_touches_only_matching_status_witness :
  (get carol_absent "userId" ∉ ids roster)
  ∧ on_overridden carol_absent roster = roster
  ∧ roster !! 0%nat = Some alice_row
  ∧ get alice_row "userId" = get alice_absent "userId"
  ∧ on_overridden alice_absent roster !! 0%nat
    = Some (<["status" := get alice_absent "status"]> alice_row)
  ∧ roster !! 1%nat = Some dan_row
  ∧ get dan_row "userId" ≠ get alice_absent "userId"
  ∧ on_overridden alice_absent roster !! 1%nat = Some dan_row.
Proof.
  assert (H1 : get carol_absent "userId" ∉ ids roster).
  { apply (bool_decide_unpack _). vm_compute. exact I. }
  assert (H2 : roster !! 0%nat = Some alice_row) by reflexivity.
  assert (H3 : get alice_row "userId" = get alice_absent "userId")
    by (vm_compute; reflexivity).
  assert (H4 : roster !! 1%nat = Some dan_row) by reflexivity.
  assert (H5 : get dan_row "userId" ≠ get alice_absent "userId").
  { intros H. vm_compute in H. discriminate H. }
  destruct (override_touches_only_matching_status carol_absent roster) as (A & _).
  destruct (override_touches_only_matching_status alice_absent roster) as (_ & _ & B).
  destruct (B _ _ H2) as (st0 & E0 & _ & M0).
  destruct (B _ _ H4) as (st1 & E1 & N1 & _).
  destruct (M0 H3) as (M1 & _).
  split_and!; [exact H1|exact (A H1)|exact H2|exact H3| |exact H4|exact H5|].
  - rewrite E0. f_equal. exact M1.
  - rewrite E1. f_equal. exact (N1 H5).
Defined.

End Teacher.


(** * Further properties of StudentView *)

Section StudentMore.
Import StudentView.

Local Ltac step_cases H :=
  apply student_step_handle in H as [_ H];
  unfold handle, pingLocation_position, pingLocation_position_failed in H;
  repeat (case_match; simplify_eq/=); simplify_eq/=.

Local Ltac in_list :=
  solve [repeat first [apply list_elem_of_here | apply list_elem_of_further]].

Lemma student_run_app p tr1 tr2 : ∀ w,
  run p (tr1 ++ tr2) w =
    match run p tr1 w with Some w1 => run p tr2 w1 | None => None end.
Proof.
  induction tr1 as [|e tr1 IH]; intros w; simpl; [done|].
  destruct (step p w e); [apply IH|done].
Qed.

Lemma student_run_snoc p tr e w w' :
  run p (tr ++ [e]) w = Some w' ↔ ∃ w1, run p tr w = Some w1 ∧ step p w1 e = Some w'.
Proof.
  rewrite student_run_app. destruct (run p tr w) as [w1|]; simpl.
  - destruct (step p w1 e) as [w2|] eqn:E; split.
    + intros [= <-]. eauto.
    + intros (? & [= <-] & ?). congruence.
    + done.
    + intros (? & [= <-] & ?). congruence.
  - split; [done|]. by intros (? & ? & _).
Qed.

(** Which steps write [status], and what. *)
Lemma step_status p w e w' :
  step p w e = Some w' →
  status (view w') =
    match e with
    | ClickCheck | ClickRetry => "checking"
    | PositionRejected _ | LocationRejected => "loc-error"
    | LocationResolved d => if truthy (get d "allowed") then "allowed" else "too-far"
    | SelfieResolved d =>
        if strict_eq (get d "status") (VStr "uploaded")
        then "uploaded" else status (view w)
    | _ => status (view w)
    end.
Proof.
  intros H. destruct e; step_cases H; try done.
  - unfold upload. by case_match.
  - unfold upload_then. by rewrite H.
  - unfold upload_then. by rewrite H.
Qed.

Lemma run_status_consistent p tr : ∀ w w',
  run p tr w = Some w' →
  (status (view w) = "too-far" → allowed (view w) = false) →
  (status (view w) = "allowed" → allowed (view w) = true) →
  (status (view w') = "too-far" → allowed (view w') = false)
  ∧ (status (view w') = "allowed" → allowed (view w') = true).
Proof.
  induction tr as [|e tr IH]; intros w w' Hrun H1 H2; simpl in *.
  - by simplify_eq.
  - destruct (step p w e) as [w1|] eqn:Hs; [|done].
    pose proof (step_status _ _ _ _ Hs) as Hst.
    pose proof (step_allowed _ _ _ _ Hs) as Hal.
    apply (IH _ _ Hrun); rewrite Hst, Hal; destruct e; auto; try discriminate.
    all: repeat case_match; auto; discriminate.
Qed.

(** The status is always one of the six strings the component writes. *)
Theorem student_status_is_known p tr w :
  run p tr mount = Some w →
  status (view w) ∈ ["idle"; "checking"; "allowed"; "too-far"; "loc-error"; "uploaded"].
Proof.
  revert w. induction tr as [|e tr IH] using rev_ind; intros w Hrun.
  - simpl in Hrun. simplify_eq. in_list.
  - apply student_run_snoc in Hrun as (w1 & Hrun & Hs).
    specialize (IH _ Hrun). rewrite (step_status _ _ _ _ Hs).
    destruct e; repeat case_match; first [exact IH | in_list].
Qed.

(** The 'too-far' message and the upload block are never rendered
    together: with the status 'too-far', [allowed] is false; and with the
    status 'allowed' the upload block is rendered. *)
Theorem too_far_and_upload_block_exclude p tr w :
  run p tr mount = Some w →
  (shows_too_far (view w) = true → shows_upload (view w) = false)
  ∧ (status (view w) = "allowed" → shows_upload (view w) = true)
  ∧ (status (view w) = "too-far" → allowed (view w) = false).
Proof.
  intros Hrun.
  destruct (run_status_consistent p tr mount w Hrun) as [H1 H2]; [done|done|].
  unfold shows_too_far, shows_upload. split_and!; [|done|done].
  intros Hs. apply andb_prop in Hs as [_ Hs].
  apply bool_decide_eq_true in Hs. auto.
Qed.

Lemma step_distance p w e w' :
  step p w e = Some w' →
  distance (view w') =
    match e with
    | LocationResolved d => get d "distanceMeters"
    | _ => distance (view w)
    end.
Proof.
  intros H. destruct e; step_cases H; try done.
  - unfold upload. by case_match.
  - unfold upload_then. by case_match.
Qed.

Lemma run_distance p tr : ∀ w w' acc,
  run p tr w = Some w' →
  distance (view w) = from_option (λ d, get d "distanceMeters") VNull acc →
  distance (view w') =
    from_option (λ d, get d "distanceMeters") VNull (last_result tr acc).
Proof.
  induction tr as [|e tr IH]; intros w w' acc Hrun Hacc; simpl in *.
  - by simplify_eq.
  - destruct (step p w e) as [w1|] eqn:Hs; [|done].
    apply step_distance in Hs.
    destruct e; apply (IH _ _ _ Hrun); simpl; congruence.
Qed.

(** [distance] is [null] until a location request has resolved, and from
    then on it is the [distanceMeters] of the result received last; a
    failed check or an upload never touches it. *)
Theorem distance_is_last_measurement p tr w :
  run p tr mount = Some w →
  distance (view w) =
    match last_result tr None with
    | Some d => get d "distanceMeters"
    | None => VNull
    end.
Proof.
  intros Hrun. rewrite (run_distance p tr mount w None Hrun eq_refl).
  by destruct (last_result tr None).
Qed.

Lemma step_upload_needs_pass p w e w' :
  step p w e = Some w' →
  allowed (view w') = true ∨ awaiting_selfie w' ≠ 0%nat ∨ status (view w') = "uploaded" →
  (allowed (view w) = true ∨ awaiting_selfie w ≠ 0%nat ∨ status (view w) = "uploaded")
  ∨ match e with LocationResolved d => truthy (get d "allowed") = true | _ => False end.
Proof.
  intros H Hinv.
  pose proof (step_allowed _ _ _ _ H) as Hal.
  pose proof (step_status _ _ _ _ H) as Hst.
  assert (Hsel : awaiting_selfie w' ≠ 0%nat →
            awaiting_selfie w ≠ 0%nat ∨ allowed (view w) = true).
  { intros Hn. destruct e; step_cases H; auto; try (left; lia).
    right. unfold shows_upload in *. by destruct (allowed (view w)). }
  rewrite Hal, Hst in Hinv.
  destruct Hinv as [Ha|[Hn|Hu]].
  - destruct e; auto.
  - destruct (Hsel Hn); auto.
  - destruct e; auto; try discriminate Hu.
    + by case_match.
    + case_match; [|by auto]. left. right. left.
      apply student_step_handle in H as [_ H].
      unfold handle in H. by case_bool_decide.
Qed.

Lemma run_upload_needs_pass p tr : ∀ w w',
  run p tr w = Some w' →
  allowed (view w') = true ∨ awaiting_selfie w' ≠ 0%nat ∨ status (view w') = "uploaded" →
  (allowed (view w) = true ∨ awaiting_selfie w ≠ 0%nat ∨ status (view w) = "uploaded")
  ∨ passed_once tr = true.
Proof.
  induction tr as [|e tr IH]; intros w w' Hrun Hinv; simpl in *.
  - simplify_eq. by left.
  - destruct (step p w e) as [w1|] eqn:Hs; [|done].
    destruct (IH _ _ Hrun Hinv) as [H1|H1].
    + destruct (step_upload_needs_pass _ _ _ _ Hs H1) as [?|He]; [by left|].
      right. destruct e; try done. by rewrite He.
    + right. rewrite H1. apply orb_true_r.
Qed.

(** The status 'uploaded' is reached only after some proximity result was
    allowed, and only through a selfie response that says 'uploaded'; the
    same holds for a selfie request still in flight. *)
Theorem uploaded_only_after_allowed_ping p tr w :
  run p tr mount = Some w →
  status (view w) = "uploaded" ∨ awaiting_selfie w ≠ 0%nat →
  passed_once tr = true
  ∧ (status (view w) = "uploaded" →
       ∃ d, SelfieResolved d ∈ tr ∧ get d "status" = VStr "uploaded").
Proof.
  intros Hrun Hup. split.
  - destruct (run_upload_needs_pass p tr mount w Hrun) as [[?|[?|?]]|?]; try done.
    destruct Hup; auto.
  - clear Hup. revert w Hrun.
    induction tr as [|e tr IH] using rev_ind; intros w Hrun Hst.
    + simpl in Hrun. by simplify_eq.
    + apply student_run_snoc in Hrun as (w1 & Hrun & Hs).
      pose proof (step_status _ _ _ _ Hs) as E. rewrite Hst in E.
      assert (Hkeep : status (view w1) = "uploaded" →
                ∃ d, SelfieResolved d ∈ (tr ++ [e])%list
                     ∧ get d "status" = VStr "uploaded").
      { intros H1. destruct (IH _ Hrun H1) as (d & Hd & ?).
        exists d. split; [|done]. apply elem_of_app. by left. }
      destruct e; try (by apply Hkeep); try discriminate E.
      * by case_match.
      * unfold strict_eq in E. case_bool_decide as Hd; [|by apply Hkeep].
        exists data. split; [|done]. apply elem_of_app. right. by left.
Qed.

(** What is known, along a run, of the session ids and files in the state
    and of the requests sent. *)
Lemma student_trace_inv p tr : ∀ w,
  run p tr mount = Some w →
  (sessionId (view w) = "" ∨ TypeSession (sessionId (view w)) ∈ tr)
  ∧ Forall (λ s, s = "" ∨ TypeSession s ∈ tr) (awaiting_position w)
  ∧ (∀ f, file (view w) = Some f → PickFile (Some f) ∈ tr)
  ∧ (∀ r, r ∈ sent w →
       (∃ sid body, r = PostLocation sid (token p) body
          ∧ (sid = "" ∨ TypeSession sid ∈ tr)
          ∧ ∃ i lat lon now, PositionResolved i lat lon now ∈ tr
                             ∧ body = location_body (user p) lat lon now)
       ∨ (∃ sid f, r = PostSelfie sid (token p) f
            ∧ (sid = "" ∨ TypeSession sid ∈ tr)
            ∧ PickFile (Some f) ∈ tr)).
Proof.
  induction tr as [|e tr IH] using rev_ind; intros w Hrun.
  - simpl in Hrun. simplify_eq. split_and!.
    + by left.
    + constructor.
    + intros f Hf. discriminate Hf.
    + intros r Hr. by apply elem_of_nil in Hr.
  - apply student_run_snoc in Hrun as (w1 & Hrun & Hs).
    destruct (IH _ Hrun) as (I1 & I2 & I3 & I4). clear IH Hrun.
    assert (He : e ∈ (tr ++ [e])%list) by (apply elem_of_app; right; left).
    assert (Hmono : ∀ x, x ∈ tr → x ∈ (tr ++ [e])%list)
      by (intros; apply elem_of_app; by left).
    assert (J1 : sessionId (view w1) = ""
                 ∨ TypeSession (sessionId (view w1)) ∈ (tr ++ [e])%list)
      by (destruct I1; auto).
    assert (J2 : Forall (λ s, s = "" ∨ TypeSession s ∈ (tr ++ [e])%list)
                   (awaiting_position w1)).
    { eapply Forall_impl; [exact I2|]. intros s [?|?]; auto. }
    assert (J3 : ∀ f, file (view w1) = Some f → PickFile (Some f) ∈ (tr ++ [e])%list)
      by auto.
    assert (J4 : ∀ r, r ∈ sent w1 →
       (∃ sid body, r = PostLocation sid (token p) body
          ∧ (sid = "" ∨ TypeSession sid ∈ (tr ++ [e])%list)
          ∧ ∃ i lat lon now, PositionResolved i lat lon now ∈ (tr ++ [e])%list
                             ∧ body = location_body (user p) lat lon now)
       ∨ (∃ sid f, r = PostSelfie sid (token p) f
            ∧ (sid = "" ∨ TypeSession sid ∈ (tr ++ [e])%list)
            ∧ PickFile (Some f) ∈ (tr ++ [e])%list)).
    { intros r Hr. destruct (I4 r Hr) as
        [(sid & body & -> & Hsid & i & lat & lon & now & Hp & ->)
        |(sid & f & -> & Hsid & Hf)].
      - left. exists sid, (location_body (user p) lat lon now).
        split; [reflexivity|]. split; [destruct Hsid; auto|].
        exists i, lat, lon, now. auto.
      - right. exists sid, f. split; [reflexivity|].
        split; [destruct Hsid; auto|auto]. }
    clear I1 I2 I3 I4 Hmono.
    generalize dependent (tr ++ [e])%list. intros tr' He J1 J2 J3 J4.
    apply student_step_handle in Hs as [_ Hs].
    unfold handle, pingLocation_position, pingLocation_position_failed in Hs.
    destruct e as [|v| | |i lat lon now|i|d| |f| |d| ].
    all: repeat (case_match; try discriminate Hs).
    all: injection Hs as <-; simpl.
    all: try (split_and!; solve [auto]).
    + split_and!; auto. apply Forall_app. split; [done|by constructor].
    + split_and!; auto. apply Forall_app. split; [done|by constructor].
    + split_and!; auto; [by apply Forall_delete|].
      intros r Hr. apply elem_of_app in Hr as [Hr|Hr]; [by auto|].
      apply list_elem_of_singleton in Hr. subst r. left.
      exists s, (location_body (user p) lat lon now).
      split; [reflexivity|]. split; [exact (Forall_lookup_1 _ _ _ _ J2 H)|].
      exists i, lat, lon, now. split; [exact He|reflexivity].
    + split_and!; auto. by apply Forall_delete.
    + split_and!; auto. intros f0 ->. exact He.
    + unfold upload. destruct (file (view w1)) as [f|] eqn:Hf; simpl;
        split_and!; auto; try (intros f0 Hf0; apply J3; congruence).
      intros r Hr. apply elem_of_app in Hr as [Hr|Hr]; [by auto|].
      apply list_elem_of_singleton in Hr. subst r. right.
      exists (sessionId (view w1)), f. split; [reflexivity|]. split; auto.
    + unfold upload_then. case_match; simpl; split_and!; auto.
Qed.


(** A selfie request carries a file the file input delivered and a session
    id the Session ID input has held. *)
Theorem student_selfie_requests p tr w sid tok f :
  run p tr mount = Some w →
  PostSelfie sid tok f ∈ sent w →
  tok = token p
  ∧ PickFile (Some f) ∈ tr
  ∧ (sid = "" ∨ TypeSession sid ∈ tr).
Proof.
  intros Hrun Hr.
  destruct (student_trace_inv p tr w Hrun) as (_ & _ & _ & I4).
  destruct (I4 _ Hr) as
    [(sid' & body & E & _)|(sid' & f' & E & Hsid & Hf)]; [discriminate E|].
  injection E as -> -> ->. auto.
Qed.

Lemma run_typing p vs : ∀ w1 w2,
  run p (map TypeSession vs) w1 = Some w2 →
  awaiting_position w2 = awaiting_position w1
  ∧ sent w2 = sent w1
  ∧ sessionId (view w2) = default (sessionId (view w1)) (last vs)
  ∧ status (view w2) = status (view w1).
Proof.
  induction vs as [|v vs IH]; intros w1 w2 Hrun; cbn [map run] in Hrun.
  - by simplify_eq.
  - destruct (step p w1 (TypeSession v)) as [w|] eqn:Hs; [|done].
    apply student_step_handle in Hs as [_ Hs]. cbn [handle] in Hs.
    injection Hs as <-. destruct (IH _ _ Hrun) as (A & B & C & D).
    rewrite A, B, C, D, last_cons. simpl. by destruct (last vs).
Qed.

(** [pingLocation] sends its request to the session id that was in the input
    when the check was started: edits of the input made while the position
    is awaited change the input, not the request. *)
Theorem ping_uses_session_id_of_its_click p w vs w2 lat lon now :
  run p (ClickCheck :: map TypeSession vs) w = Some w2 →
  sessionId (view w2) = default (sessionId (view w)) (last vs)
  ∧ ∃ w3,
      step p w2 (PositionResolved (length (awaiting_position w)) lat lon now) = Some w3
      ∧ sent w3 = (sent w ++ [PostLocation (sessionId (view w)) (token p)
                                (location_body (user p) lat lon now)])%list.
Proof.
  intros Hrun. cbn [run] in Hrun.
  destruct (step p w ClickCheck) as [w1|] eqn:Hs; [|done].
  apply student_step_handle in Hs as [_ Hs]. cbn [handle] in Hs.
  injection Hs as <-.
  destruct (run_typing _ _ _ _ Hrun) as (A & B & C & D). simpl in A, B, C, D.
  split; [exact C|].
  unfold step, renders, handle, pingLocation_position. rewrite A, B, D. simpl.
  rewrite list_lookup_middle by done. eexists. split; reflexivity.
Qed.

Import Samples Scenarios.

(** The student who has uploaded. *)
Lemma student_status_is_known_witness :
  run student_props check_in_and_upload mount = Some (student_after check_in_and_upload)
  ∧ status (view (student_after check_in_and_upload))
    ∈ ["idle"; "checking"; "allowed"; "too-far"; "loc-error"; "uploaded"].
Proof.
  assert (H1 : run student_props check_in_and_upload mount
               = Some (student_after check_in_and_upload))
    by (vm_compute; reflexivity).
  split; [exact H1|]. exact (student_status_is_known _ _ _ H1).
Defined.

(** The student who drifted away after the upload. *)
Lemma too_far_and_upload_block_exclude_witness :
  run student_props (check_in_and_upload ++ drift_away) mount
  = Some (student_after (check_in_and_upload ++ drift_away))
  ∧ shows_too_far (view (student_after (check_in_and_upload ++ drift_away))) = true
  ∧ shows_upload (view (student_after (check_in_and_upload ++ drift_away))) = false.
Proof.
  assert (H1 : run student_props (check_in_and_upload ++ drift_away) mount
               = Some (student_after (check_in_and_upload ++ drift_away)))
    by (vm_compute; reflexivity).
  assert (H2 : shows_too_far
                 (view (student_after (check_in_and_upload ++ drift_away))) = true)
    by (vm_compute; reflexivity).
  split; [exact H1|]. split; [exact H2|].
  exact (proj1 (too_far_and_upload_block_exclude _ _ _ H1) H2).
Defined.

(** The same student: the distance shown is the one of the far result. *)
Lemma distance_is_last_measurement_witness :
  run student_props (check_in_and_upload ++ drift_away) mount
  = Some (student_after (check_in_and_upload ++ drift_away))
  ∧ distance (view (student_after (check_in_and_upload ++ drift_away)))
    = match last_result (check_in_and_upload ++ drift_away) None with
      | Some d => get d "distanceMeters"
      | None => VNull
      end.
Proof.
  assert (H1 : run student_props (check_in_and_upload ++ drift_away) mount
               = Some (student_after (check_in_and_upload ++ drift_away)))
    by (vm_compute; reflexivity).
  split; [exact H1|]. exact (distance_is_last_measurement _ _ _ H1).
Defined.

(** The student who has uploaded was near before. *)
Lemma uploaded_only_after_allowed_ping_witness :
  run student_props check_in_and_upload mount = Some (student_after check_in_and_upload)
  ∧ (status (view (student_after check_in_and_upload)) = "uploaded"
     ∨ awaiting_selfie (student_after check_in_and_upload) ≠ 0%nat)
  ∧ passed_once check_in_and_upload = true.
Proof.
  assert (H1 : run student_props check_in_and_upload mount
               = Some (student_after check_in_and_upload))
    by (vm_compute; reflexivity).
  assert (H2 : status (view (student_after check_in_and_upload)) = "uploaded"
               ∨ awaiting_selfie (student_after check_in_and_upload) ≠ 0%nat)
    by (left; vm_compute; reflexivity).
  split; [exact H1|]. split; [exact H2|].
  exact (proj1 (uploaded_only_after_allowed_ping _ _ _ H1 H2)).
Defined.


(** The selfie request of the upload. *)
Lemma student_selfie_requests_witness :
  run student_props (take 6 check_in_and_upload) mount = Some uploading
  ∧ PostSelfie "sess_1" (VStr "tok-s") selfie ∈ sent uploading
  ∧ VStr "tok-s" = token student_props
  ∧ PickFile (Some selfie) ∈ take 6 check_in_and_upload
  ∧ ("sess_1" = "" ∨ TypeSession "sess_1" ∈ take 6 check_in_and_upload).
Proof.
  assert (H1 : run student_props (take 6 check_in_and_upload) mount
               = Some uploading) by (vm_compute; reflexivity).
  assert (H2 : PostSelfie "sess_1" (VStr "tok-s") selfie ∈ sent uploading).
  { replace (sent uploading)
      with [PostLocation "sess_1" (VStr "tok-s")
              (location_body alice (Q2Qc 0%Q) (Q2Qc 0%Q) "2024-01-01T09:00:00.000Z");
            PostSelfie "sess_1" (VStr "tok-s") selfie]
      by (vm_compute; reflexivity).
    right. left. }
  split; [exact H1|]. split; [exact H2|].
  exact (student_selfie_requests _ _ _ _ _ _ H1 H2).
Defined.

(** The student retypes the Session ID while the position is awaited. *)
Lemma ping_uses_session_id_of_its_click_witness :
  run student_props (ClickCheck :: map TypeSession ["sess_2"])
    (student_after [TypeSession "sess_1"])
  = Some (student_after check_then_retype)
  ∧ sessionId (view (student_after check_then_retype))
    = default (sessionId (view (student_after [TypeSession "sess_1"]))) (last ["sess_2"])
  ∧ ∃ w3,
      step student_props (student_after check_then_retype)
        (PositionResolved (length (awaiting_position (student_after [TypeSession "sess_1"])))
           (Q2Qc 0%Q) (Q2Qc 0%Q) "t")
      = Some w3
      ∧ sent w3
        = (sent (student_after [TypeSession "sess_1"])
           ++ [PostLocation (sessionId (view (student_after [TypeSession "sess_1"])))
                 (token student_props)
                 (location_body (user student_props) (Q2Qc 0%Q) (Q2Qc 0%Q) "t")])%list.
Proof.
  assert (H1 : run student_props (ClickCheck :: map TypeSession ["sess_2"])
                 (student_after [TypeSession "sess_1"])
               = Some (student_after check_then_retype))
    by (vm_compute; reflexivity).
  split; [exact H1|].
  exact (ping_uses_session_id_of_its_click _ _ _ _ (Q2Qc 0%Q) (Q2Qc 0%Q) "t" H1).
Defined.

End StudentMore.


(** * Further properties of TeacherView *)

Section TeacherMore.
Import TeacherView.

Lemma first_match_unique (l : list value) v n m :
  l !! n = Some v → v ∉ take n l → l !! m = Some v → v ∉ take m l → n = m.
Proof.
  intros Hn Hnn Hm Hmm.
  destruct (lt_eq_lt_dec n m) as [[Hlt|?]|Hlt]; [|done|].
  - exfalso. apply Hmm. apply list_elem_of_lookup. exists n.
    by rewrite lookup_take_lt.
  - exfalso. apply Hnn. apply list_elem_of_lookup. exists m.
    by rewrite lookup_take_lt.
Qed.

Lemma ids_take n l : ids (take n l) = take n (ids l).
Proof. unfold ids. apply fmap_take. Qed.

(** The uploaded listener rewrites the first row that has the payload's
    [userId]. *)
Lemma on_uploaded_at payload l n st :
  l !! n = Some st →
  get st "userId" = get payload "userId" →
  get payload "userId" ∉ ids (take n l) →
  on_uploaded payload l = <[n := uploaded_row payload st]> l.
Proof.
  intros Hl Hst Hfirst.
  assert (Hn : ids l !! n = Some (get payload "userId")).
  { unfold ids. by rewrite list_lookup_fmap, Hl, <- Hst. }
  assert (Hin : get payload "userId" ∈ ids l) by by eapply list_elem_of_lookup_2.
  destruct (on_uploaded_found _ _ Hin) as (m & st' & Hl' & Hst' & Hfirst' & ->).
  assert (m = n) as ->.
  { apply (first_match_unique (ids l) (get payload "userId")).
    - unfold ids. by rewrite list_lookup_fmap, Hl', <- Hst'.
    - by rewrite <- ids_take.
    - done.
    - by rewrite <- ids_take. }
  by simplify_eq.
Qed.

Lemma uploaded_row_idemp payload base :
  uploaded_row payload (uploaded_row payload base) = uploaded_row payload base.
Proof.
  apply map_eq. intros k. unfold uploaded_row.
  rewrite !lookup_insert. by repeat case_decide.
Qed.

Lemma overridden_row_idemp payload st :
  overridden_row payload (overridden_row payload st) = overridden_row payload st.
Proof.
  unfold overridden_row.
  destruct (strict_eq (get st "userId") (get payload "userId")) eqn:E; [|by rewrite E].
  rewrite get_insert_ne by done. rewrite E. apply insert_insert_eq.
Qed.

(** Delivering the same uploaded message twice leaves the roster as after
    the first delivery. *)
Theorem uploaded_event_twice payload l :
  on_uploaded payload (on_uploaded payload l) = on_uploaded payload l.
Proof.
  destruct (decide (get payload "userId" ∈ ids l)) as [Hin|Hnot].
  - destruct (on_uploaded_found _ _ Hin) as (n & st & Hl & Hst & Hfirst & ->).
    assert (Hlt : (n < length l)%nat) by by eapply lookup_lt_Some.
    rewrite (on_uploaded_at payload _ n (uploaded_row payload st)).
    + by rewrite list_insert_insert_eq, uploaded_row_idemp.
    + by apply list_lookup_insert_eq.
    + by rewrite uploaded_row_userId.
    + by rewrite take_insert_ge by lia.
  - rewrite (on_uploaded_fresh payload l) by done.
    rewrite (on_uploaded_at payload _ 0
               (uploaded_row payload (<["userId" := get payload "userId"]> ∅))).
    + simpl. by rewrite uploaded_row_idemp.
    + done.
    + by rewrite uploaded_row_userId, get_insert_eq.
    + simpl. apply not_elem_of_nil.
Qed.

(** Delivering the same overridden message twice leaves the roster as after
    the first delivery. *)
Theorem overridden_event_twice payload l :
  on_overridden payload (on_overridden payload l) = on_overridden payload l.
Proof.
  unfold on_overridden. rewrite map_map. apply map_ext.
  intros st. apply (overridden_row_idemp payload st).
Qed.

Lemma uploaded_row_fields payload base :
  get (uploaded_row payload base) "status" = VStr "uploaded"
  ∧ get (uploaded_row payload base) "photoUrl" = get payload "photoUrl"
  ∧ get (uploaded_row payload base) "distance" = get payload "distance".
Proof.
  unfold uploaded_row. split_and!.
  - rewrite (get_insert_ne _ "distance"), (get_insert_ne _ "photoUrl") by done.
    apply get_insert_eq.
  - rewrite (get_insert_ne _ "distance") by done. apply get_insert_eq.
  - apply get_insert_eq.
Qed.

Lemma filter_others_insert (P : obj → Prop) `{∀ x, Decision (P x)} (l : list obj) n x y :
  l !! n = Some x → ¬ P x → ¬ P y → filter P (<[n := y]> l) = filter P l.
Proof.
  intros Hl Hx Hy.
  rewrite <- (take_drop_middle l n x Hl) at 2.
  rewrite insert_take_drop by by eapply lookup_lt_Some.
  rewrite !filter_app, !filter_cons. by rewrite !decide_False.
Qed.

(** After an uploaded message the roster has a row for the payload's
    [userId], the first one with it, whose status is 'uploaded' and whose
    [photoUrl] and [distance] are the payload's; the rows of every other
    [userId] are the same as before, in the same order, and the list grows
    by one row exactly when the [userId] was new. *)
Theorem uploaded_event_is_recorded payload l :
  (∃ n st, on_uploaded payload l !! n = Some st
           ∧ get st "userId" = get payload "userId"
           ∧ (get payload "userId" ∉ ids (take n (on_uploaded payload l)))
           ∧ get st "status" = VStr "uploaded"
           ∧ get st "photoUrl" = get payload "photoUrl"
           ∧ get st "distance" = get payload "distance")
  ∧ filter (λ st, get st "userId" ≠ get payload "userId") (on_uploaded payload l)
    = filter (λ st, get st "userId" ≠ get payload "userId") l
  ∧ length (on_uploaded payload l)
    = (if decide (get payload "userId" ∈ ids l) then length l else S (length l)).
Proof.
  destruct (decide (get payload "userId" ∈ ids l)) as [Hin|Hnot].
  - destruct (on_uploaded_found _ _ Hin) as (n & st & Hl & Hst & Hfirst & ->).
    assert (Hlt : (n < length l)%nat) by by eapply lookup_lt_Some.
    destruct (uploaded_row_fields payload st) as (F1 & F2 & F3).
    split_and!.
    + exists n, (uploaded_row payload st).
      rewrite list_lookup_insert_eq, uploaded_row_userId, take_insert_ge by lia.
      by split_and!.
    + apply (filter_others_insert _ l n st); [done| |].
      * intros Hne. by apply Hne.
      * intros Hne. apply Hne. by rewrite uploaded_row_userId.
    + apply length_insert.
  - rewrite on_uploaded_fresh by done.
    destruct (uploaded_row_fields payload (<["userId" := get payload "userId"]> ∅))
      as (F1 & F2 & F3).
    assert (Hid : get (uploaded_row payload (<["userId" := get payload "userId"]> ∅))
                    "userId" = get payload "userId")
      by by rewrite uploaded_row_userId, get_insert_eq.
    split_and!.
    + exists 0%nat, (uploaded_row payload (<["userId" := get payload "userId"]> ∅)).
      split_and!; try done. simpl. apply not_elem_of_nil.
    + rewrite filter_cons, decide_False; [done|]. intros Hne. by apply Hne.
    + done.
Qed.

(** When several rows have the payload's [userId], the uploaded listener
    rewrites the first of them only: every other row, later rows with the
    same [userId] included, is left as it is, and the rewritten row keeps
    all its properties but [status], [photoUrl] and [distance]. *)
Theorem uploaded_event_rewrites_first_match_only payload l n st :
  l !! n = Some st →
  get st "userId" = get payload "userId" →
  get payload "userId" ∉ ids (take n l) →
  on_uploaded payload l !! n = Some (uploaded_row payload st)
  ∧ (∀ i, i ≠ n → on_uploaded payload l !! i = l !! i)
  ∧ (∀ k, k ≠ "status" → k ≠ "photoUrl" → k ≠ "distance" →
       uploaded_row payload st !! k = st !! k).
Proof.
  intros Hl Hst Hfirst. rewrite (on_uploaded_at _ _ _ _ Hl Hst Hfirst).
  split_and!.
  - apply list_lookup_insert_eq. by eapply lookup_lt_Some.
  - intros i Hi. by apply list_lookup_insert_ne.
  - intros k H1 H2 H3. unfold uploaded_row. by rewrite !lookup_insert_ne.
Qed.

(** The two listeners do not commute: of an uploaded and an overridden
    message for the same [userId], the one delivered later decides the
    status of the row. An upload delivered after an override puts the status
    back to 'uploaded'; an override delivered after an upload keeps the
    photo and the distance of the upload. *)
Theorem later_event_decides_status up ov l n st :
  l !! n = Some st →
  get st "userId" = get up "userId" →
  get ov "userId" = get up "userId" →
  get up "userId" ∉ ids (take n l) →
  (∃ r, on_uploaded up (on_overridden ov l) !! n = Some r
        ∧ r = uploaded_row up (<["status" := get ov "status"]> st)
        ∧ get r "status" = VStr "uploaded")
  ∧ (∃ r, on_overridden ov (on_uploaded up l) !! n = Some r
          ∧ r = <["status" := get ov "status"]> (uploaded_row up st)
          ∧ get r "status" = get ov "status"
          ∧ get r "photoUrl" = get up "photoUrl"
          ∧ get r "distance" = get up "distance").
Proof.
  intros Hl Hst Hov Hfirst.
  assert (Hlt : (n < length l)%nat) by by eapply lookup_lt_Some.
  split.
  - assert (Hl2 : on_overridden ov l !! n = Some (<["status" := get ov "status"]> st)).
    { unfold on_overridden. change (map ?f l) with (f <$> l).
      rewrite list_lookup_fmap, Hl. simpl.
      unfold strict_eq. by rewrite bool_decide_eq_true_2 by congruence. }
    rewrite (on_uploaded_at up _ n _ Hl2).
    + eexists. split; [apply list_lookup_insert_eq; by eapply lookup_lt_Some|].
      split; [done|]. apply uploaded_row_fields.
    + by rewrite get_insert_ne.
    + by rewrite ids_take, ids_on_overridden, <- ids_take.
  - rewrite (on_uploaded_at up _ n _ Hl Hst Hfirst).
    unfold on_overridden. change (map ?f ?l0) with (f <$> l0).
    rewrite list_lookup_fmap, list_lookup_insert_eq by done. simpl.
    rewrite uploaded_row_userId.
    unfold strict_eq. rewrite bool_decide_eq_true_2 by congruence.
    eexists. split; [done|]. split; [done|].
    destruct (uploaded_row_fields up st) as (_ & F2 & F3).
    split_and!.
    + apply get_insert_eq.
    + by rewrite get_insert_ne.
    + by rewrite get_insert_ne.
Qed.

Lemma teacher_run_app p tr1 tr2 : ∀ w,
  run p (tr1 ++ tr2) w =
    match run p tr1 w with Some w1 => run p tr2 w1 | None => None end.
Proof.
  induction tr1 as [|e tr1 IH]; intros w; simpl; [done|].
  destruct (step p w e); [apply IH|done].
Qed.

Lemma teacher_run_snoc p tr e w w' :
  run p (tr ++ [e]) w = Some w' ↔ ∃ w1, run p tr w = Some w1 ∧ step p w1 e = Some w'.
Proof.
  rewrite teacher_run_app. destruct (run p tr w) as [w1|]; simpl.
  - destruct (step p w1 e) as [w2|] eqn:E; split.
    + intros [= <-]. eauto.
    + intros (? & [= <-] & ?). congruence.
    + done.
    + intros (? & [= <-] & ?). congruence.
  - split; [done|]. by intros (? & ? & _).
Qed.

Lemma session_of_sessionId data : get (session_of data) "sessionId" = get data "sessionId".
Proof.
  unfold session_of.
  rewrite (get_insert_ne _ "teacherLocation"), (get_insert_ne _ "expiresAt"),
    (get_insert_ne _ "startsAt") by done.
  apply get_insert_eq.
Qed.

(** What is known, along a run, of the session, the socket and the requests
    sent. *)
Lemma teacher_trace_inv p tr : ∀ w,
  run p tr mount = Some w →
  (consented (view w) = false → tr = [] ∧ w = mount)
  ∧ (session (view w) = None →
       socket w = None ∧ effect_due w = false
       ∧ students (view w) = [] ∧ awaiting_view w = 0%nat)
  ∧ (effect_due w = false →
       socket w = (λ s, get s "sessionId") <$> session (view w))
  ∧ (∀ s, session (view w) = Some s →
       ∃ data, StartResolved data ∈ tr ∧ s = session_of data)
  ∧ (∀ r, r ∈ sent w →
       (∃ lat lon, r = PostSessionStart (token p) (start_body (user p) lat lon))
       ∨ (∃ data, StartResolved data ∈ tr
                  ∧ r = GetTeacherView (get data "sessionId") (token p))
       ∨ (∃ data uid (present : bool),
            StartResolved data ∈ tr
            ∧ r = PostOverride (get data "sessionId") (token p)
                    (override_body uid (if present then "overridden_present"
                                        else "overridden_absent")))).
Proof.
  induction tr as [|e tr IH] using rev_ind; intros w Hrun.
  - simpl in Hrun. simplify_eq. split_and!; try done.
    intros r Hr. by apply elem_of_nil in Hr.
  - apply teacher_run_snoc in Hrun as (w1 & Hrun & Hs).
    destruct (IH _ Hrun) as (I0 & I1 & I2 & I3 & I4). clear IH.
    assert (He : e ∈ (tr ++ [e])%list) by (apply elem_of_app; right; left).
    assert (Hmono : ∀ x, x ∈ tr → x ∈ (tr ++ [e])%list)
      by (intros; apply elem_of_app; by left).
    assert (J3 : ∀ s, session (view w1) = Some s →
              ∃ data, StartResolved data ∈ (tr ++ [e])%list ∧ s = session_of data).
    { intros s Hs'. destruct (I3 s Hs') as (data & ? & ?). eauto. }
    assert (J4 : ∀ r, r ∈ sent w1 →
       (∃ lat lon, r = PostSessionStart (token p) (start_body (user p) lat lon))
       ∨ (∃ data, StartResolved data ∈ (tr ++ [e])%list
                  ∧ r = GetTeacherView (get data "sessionId") (token p))
       ∨ (∃ data uid (present : bool),
            StartResolved data ∈ (tr ++ [e])%list
            ∧ r = PostOverride (get data "sessionId") (token p)
                    (override_body uid (if present then "overridden_present"
                                        else "overridden_absent")))).
    { intros r Hr. destruct (I4 r Hr) as
        [?|[(data & ? & ?)|(data & uid & present & ? & ?)]]; [by left| |].
      - right. left. exists data. auto.
      - right. right. exists data, uid, present. auto. }
    assert (J0 : consented (view w) = true).
    { destruct (consented (view w1)) eqn:Hc.
      - apply teacher_step_handle in Hs as [_ Hs]. unfold handle in Hs.
        destruct e; repeat case_match; simplify_eq; try done.
        all: unfold override; by repeat case_match.
      - destruct (I0 eq_refl) as [-> ->].
        apply teacher_step_handle in Hs as [_ Hs]. unfold handle in Hs.
        destruct e; repeat case_match; simplify_eq; done. }
    clear I0 I3 I4 Hmono Hrun.
    split; [by rewrite J0|].
    generalize dependent (tr ++ [e])%list. intros tr' He J3 J4.
    apply teacher_step_handle in Hs as [_ Hs]. unfold handle in Hs.
    destruct e as [| |lat lon| |data| |tv| | |nm payload|i present].
    all: repeat (case_match; try discriminate Hs).
    all: injection Hs as <-; simpl.
    all: try (split_and!; solve [auto]).
    + split_and!; auto.
      intros r Hr. apply elem_of_app in Hr as [Hr|Hr]; [by auto|].
      apply list_elem_of_singleton in Hr. subst r. left. eauto.
    + split_and!; try done.
      * intros s [= <-]. exists data. by split.
      * intros r Hr. apply elem_of_app in Hr as [Hr|Hr]; [by auto|].
        apply list_elem_of_singleton in Hr. subst r. right. left. exists data. by split.
    + apply bool_decide_eq_false in H. split_and!; auto.
      intros Hn. by destruct (I1 Hn) as (_ & _ & _ & ?).
    + apply bool_decide_eq_false in H. split_and!; auto.
      intros Hn. by destruct (I1 Hn) as (_ & _ & _ & ?).
    + split_and!; auto.
      intros Hn. by destruct (I1 Hn) as (_ & ? & _).
    + split_and!; auto.
      * intros Hn. destruct (I1 Hn) as (? & _). congruence.
      * intros Hd. rewrite H. auto.
    + unfold override. destruct (session (view w1)) as [s|] eqn:Hsess; simpl;
        rewrite ?Hsess; split_and!; auto.
      intros r Hr. apply elem_of_app in Hr as [Hr|Hr]; [by auto|].
      apply list_elem_of_singleton in Hr. subst r.
      destruct (J3 _ eq_refl) as (data & Hd & ->).
      right. right. exists data, (get g "userId"), true.
      split; [exact Hd|]. by rewrite session_of_sessionId.
    + unfold override. destruct (session (view w1)) as [s|] eqn:Hsess; simpl;
        rewrite ?Hsess; split_and!; auto.
      intros r Hr. apply elem_of_app in Hr as [Hr|Hr]; [by auto|].
      apply list_elem_of_singleton in Hr. subst r.
      destruct (J3 _ eq_refl) as (data & Hd & ->).
      right. right. exists data, (get g "userId"), false.
      split; [exact Hd|]. by rewrite session_of_sessionId.
Qed.

(** Before the consent is accepted nothing can happen in a TeacherView:
    it is in its initial state, with no request sent and no socket; the
    first event of every run is the acceptance, and the consent is never
    withdrawn. *)
Theorem teacher_consent_comes_first p tr w :
  run p tr mount = Some w →
  (consented (view w) = false → tr = [] ∧ w = mount)
  ∧ (consented (view w) = true → head tr = Some Accept).
Proof.
  intros Hrun. destruct (teacher_trace_inv p tr w Hrun) as (I0 & _).
  split; [exact I0|]. intros Hc.
  destruct tr as [|e tr]; simpl in Hrun.
  - by simplify_eq.
  - destruct (step p mount e) as [w1|] eqn:Hs; [|done].
    apply teacher_step_handle in Hs as [_ Hs].
    unfold handle, mount in Hs. by destruct e.
Qed.

(** The socket follows the session: without a session there is no socket
    and the roster is empty; once the effect has run for the latest session,
    the socket is in the room of that session's [sessionId]; and the session
    in the state is always built from a session-creating response. *)
Theorem socket_follows_session p tr w :
  run p tr mount = Some w →
  (session (view w) = None → socket w = None ∧ students (view w) = [])
  ∧ (effect_due w = false →
       socket w = (λ s, get s "sessionId") <$> session (view w))
  ∧ (∀ s, session (view w) = Some s →
       ∃ data, StartResolved data ∈ tr ∧ s = session_of data
               ∧ get s "sessionId" = get data "sessionId").
Proof.
  intros Hrun. destruct (teacher_trace_inv p tr w Hrun) as (_ & I1 & I2 & I3 & _).
  split_and!; [|exact I2|].
  - intros Hn. by destruct (I1 Hn) as (? & _ & ? & _).
  - intros s Hs. destruct (I3 s Hs) as (data & Hd & ->).
    exists data. split_and!; [done|done|apply session_of_sessionId].
Qed.

Lemma PostOverride_inj sid tok body sid' tok' body' :
  PostOverride sid tok body = PostOverride sid' tok' body' →
  sid = sid' ∧ tok = tok' ∧ body = body'.
Proof. intros H. by injection H. Qed.

Lemma override_body_fields uid status :
  override_body uid status !! "status" = Some (VStr status)
  ∧ override_body uid status !! "userId"
    = (if decide (uid = VUndefined) then None else Some uid).
Proof.
  unfold override_body, JSON_stringify. split.
  - apply map_lookup_filter_Some. split; [by simplify_map_eq|done].
  - case_decide as Hu.
    + apply map_lookup_filter_None. right. intros x Hx.
      rewrite lookup_insert_ne, lookup_insert_eq in Hx by done.
      simpl. intros Hne. apply Hne. congruence.
    + apply map_lookup_filter_Some. split; [by simplify_map_eq|done].
Qed.

Lemma step_override_request p w e w' sid tok body :
  step p w e = Some w' →
  PostOverride sid tok body ∈ sent w' →
  PostOverride sid tok body ∈ sent w
  ∨ ∃ i present st s,
      e = ClickMark i present
      ∧ students (view w) !! i = Some st
      ∧ session (view w) = Some s
      ∧ sid = get s "sessionId" ∧ tok = token p
      ∧ body = override_body (get st "userId")
                 (if present then "overridden_present" else "overridden_absent")
      ∧ view w' = view w
      ∧ sent w' = (sent w ++ [PostOverride sid tok body])%list.
Proof.
  intros H Hin. apply teacher_step_handle in H as [_ H]. unfold handle in H.
  destruct e as [| |lat lon| |data| |tv| | |nm payload|i present].
  all: repeat (case_match; try discriminate H).
  all: injection H as <-; simpl in Hin; auto.
  - apply elem_of_app in Hin as [?|Hin]; [by left|].
    apply list_elem_of_singleton in Hin. discriminate Hin.
  - apply elem_of_app in Hin as [?|Hin]; [by left|].
    apply list_elem_of_singleton in Hin. discriminate Hin.
  - unfold override in *. destruct (session (view w)) as [s|] eqn:Hs; [|by left].
    simpl in Hin. apply elem_of_app in Hin as [?|Hin]; [by left|].
    apply list_elem_of_singleton in Hin.
    apply PostOverride_inj in Hin as (-> & -> & ->).
    right. exists i, true, g, s. by split_and!.
  - unfold override in *. destruct (session (view w)) as [s|] eqn:Hs; [|by left].
    simpl in Hin. apply elem_of_app in Hin as [?|Hin]; [by left|].
    apply list_elem_of_singleton in Hin.
    apply PostOverride_inj in Hin as (-> & -> & ->).
    right. exists i, false, g, s. by split_and!.
Qed.

Lemma override_requests_inv p tr : ∀ w sid tok body,
  run p tr mount = Some w →
  PostOverride sid tok body ∈ sent w →
  ∃ tr1 tr2 w1 i present st s,
    tr = (tr1 ++ ClickMark i present :: tr2)%list
    ∧ run p tr1 mount = Some w1
    ∧ students (view w1) !! i = Some st
    ∧ session (view w1) = Some s
    ∧ sid = get s "sessionId" ∧ tok = token p
    ∧ body = override_body (get st "userId")
               (if present then "overridden_present" else "overridden_absent").
Proof.
  induction tr as [|e tr IH] using rev_ind; intros w sid tok body Hrun Hin.
  - simpl in Hrun. simplify_eq. by apply elem_of_nil in Hin.
  - apply teacher_run_snoc in Hrun as (w0 & Hrun & Hs).
    destruct (step_override_request _ _ _ _ _ _ _ Hs Hin)
      as [Hold|(i & present & st & s & -> & Hst & Hses & Hsid & Htok & Hb & _)].
    + destruct (IH _ _ _ _ Hrun Hold)
        as (tr1 & tr2 & w1 & i & present & st & s & -> & Hr1 & Hrest).
      exists tr1, (tr2 ++ [e])%list, w1, i, present, st, s.
      split; [by rewrite <- app_assoc|]. by split.
    + exists tr, [], w0, i, present, st, s. by split_and!.
Qed.

(** Every override request comes from a click on a row: it carries the
    token, goes to the [sessionId] of the session the component had at the
    click, which a session-creating response of the run delivered, and its
    body has the [userId] of the clicked row and the status
    'overridden_present' or 'overridden_absent'; the [userId] is left out of
    the body when the row has none. Marking a row sends exactly that request
    and changes nothing in the component's own state: the roster changes
    only when a message arrives. *)
Theorem override_requests_name_a_started_session p tr w :
  run p tr mount = Some w →
  (∀ sid tok body, PostOverride sid tok body ∈ sent w →
     tok = token p
     ∧ ∃ tr1 tr2 w1 i present st s data,
         tr = (tr1 ++ ClickMark i present :: tr2)%list
         ∧ run p tr1 mount = Some w1
         ∧ students (view w1) !! i = Some st
         ∧ session (view w1) = Some s
         ∧ StartResolved data ∈ tr
         ∧ sid = get s "sessionId"
         ∧ sid = get data "sessionId"
         ∧ body = override_body (get st "userId")
                    (if present then "overridden_present" else "overridden_absent")
         ∧ body !! "status"
           = Some (VStr (if present then "overridden_present" else "overridden_absent"))
         ∧ body !! "userId"
           = (if decide (get st "userId" = VUndefined) then None
              else Some (get st "userId")))
  ∧ (∀ i present w', step p w (ClickMark i present) = Some w' →
       view w' = view w
       ∧ ∃ st s,
           students (view w) !! i = Some st
           ∧ session (view w) = Some s
           ∧ sent w' =
               (sent w ++ [PostOverride (get s "sessionId") (token p)
                             (override_body (get st "userId")
                                (if present then "overridden_present"
                                 else "overridden_absent"))])%list).
Proof.
  intros Hrun. split.
  - intros sid tok body Hr.
    destruct (override_requests_inv _ _ _ _ _ _ Hrun Hr)
      as (tr1 & tr2 & w1 & i & present & st & s & -> & Hr1 & Hst & Hses & -> & -> & ->).
    split; [reflexivity|].
    destruct (teacher_trace_inv p tr1 w1 Hr1) as (_ & _ & _ & I3 & _).
    destruct (I3 s Hses) as (data & Hd & ->).
    destruct (override_body_fields (get st "userId")
                (if present then "overridden_present" else "overridden_absent"))
      as (F1 & F2).
    exists tr1, tr2, w1, i, present, st, (session_of data), data.
    split_and!;
      [reflexivity|exact Hr1|exact Hst|exact Hses| |reflexivity
      |apply session_of_sessionId|reflexivity|exact F1|exact F2].
    apply elem_of_app. left. exact Hd.
  - intros i present w' Hs.
    assert (Hnew : ∃ st s,
       students (view w) !! i = Some st ∧ session (view w) = Some s
       ∧ w' = override p (get st "userId")
                (if present then "overridden_present" else "overridden_absent") w).
    { apply teacher_step_handle in Hs as [_ Hs]. unfold handle in Hs.
      destruct (consented (view w) && bool_decide (session (view w) ≠ None))
        eqn:Hc; [|done].
      destruct (students (view w) !! i) as [st|]; [|done].
      injection Hs as <-.
      apply andb_prop in Hc as [_ Hc]. apply bool_decide_eq_true in Hc.
      destruct (session (view w)) as [s|] eqn:Hses; [|done].
      exists st, s. split; [reflexivity|]. split; [reflexivity|].
      destruct present; reflexivity. }
    destruct Hnew as (st & s & Hst & Hses & ->).
    unfold override. rewrite Hses. cbn [view sent]. split; [reflexivity|].
    exists st, s. split; [exact Hst|]. split; reflexivity.
Qed.



Import Samples Scenarios.

(** A roster with two rows for Alice: the second one stays as it is. *)
Lemma uploaded_event_rewrites_first_match_only_witness :
  doubled !! 1%nat = Some alice_row
  ∧ get alice_row "userId" = get alice_uploaded "userId"
  ∧ (get alice_uploaded "userId" ∉ ids (take 1 doubled))
  ∧ on_uploaded alice_uploaded doubled !! 1%nat
    = Some (uploaded_row alice_uploaded alice_row)
  ∧ on_uploaded alice_uploaded doubled !! 2%nat = doubled !! 2%nat.
Proof.
  assert (H1 : doubled !! 1%nat = Some alice_row) by reflexivity.
  assert (H2 : get alice_row "userId" = get alice_uploaded "userId")
    by (vm_compute; reflexivity).
  assert (H3 : get alice_uploaded "userId" ∉ ids (take 1 doubled)).
  { apply (bool_decide_unpack _). vm_compute. exact I. }
  destruct (uploaded_event_rewrites_first_match_only _ _ _ _ H1 H2 H3) as (A & B & _).
  split_and!; [exact H1|exact H2|exact H3|exact A|].
  apply B. discriminate.
Defined.

(** An upload and an override for Alice, in both orders. *)
Lemma later_event_decides_status_witness :
  roster !! 0%nat = Some alice_row
  ∧ get alice_row "userId" = get alice_uploaded "userId"
  ∧ get alice_absent "userId" = get alice_uploaded "userId"
  ∧ (get alice_uploaded "userId" ∉ ids (take 0 roster))
  ∧ (∃ r, on_uploaded alice_uploaded (on_overridden alice_absent roster) !! 0%nat = Some r
          ∧ get r "status" = VStr "uploaded")
  ∧ (∃ r, on_overridden alice_absent (on_uploaded alice_uploaded roster) !! 0%nat = Some r
          ∧ get r "status" = get alice_absent "status"
          ∧ get r "photoUrl" = get alice_uploaded "photoUrl").
Proof.
  assert (H1 : roster !! 0%nat = Some alice_row) by reflexivity.
  assert (H2 : get alice_row "userId" = get alice_uploaded "userId")
    by (vm_compute; reflexivity).
  assert (H3 : get alice_absent "userId" = get alice_uploaded "userId")
    by (vm_compute; reflexivity).
  assert (H4 : get alice_uploaded "userId" ∉ ids (take 0 roster)).
  { apply (bool_decide_unpack _). vm_compute. exact I. }
  destruct (later_event_decides_status _ _ _ _ _ H1 H2 H3 H4)
    as ((r1 & A1 & _ & A2) & (r2 & B1 & _ & B2 & B3 & _)).
  split_and!; [exact H1|exact H2|exact H3|exact H4| |].
  - exists r1. exact (conj A1 A2).
  - exists r2. exact (conj B1 (conj B2 B3)).
Defined.

(** The teacher who opened a session accepted the consent first. *)
Lemma teacher_consent_comes_first_witness :
  run teacher_props open_and_hear mount = Some hearing
  ∧ consented (view hearing) = true
  ∧ head open_and_hear = Some Accept.
Proof.
  assert (H1 : run teacher_props open_and_hear mount = Some hearing)
    by (vm_compute; reflexivity).
  assert (H2 : consented (view hearing) = true) by (vm_compute; reflexivity).
  split; [exact H1|]. split; [exact H2|].
  exact (proj2 (teacher_consent_comes_first _ _ _ H1) H2).
Defined.

(** The same teacher: the socket is in the room of the session. *)
Lemma socket_follows_session_witness :
  run teacher_props open_and_hear mount = Some hearing
  ∧ effect_due hearing = false
  ∧ socket hearing = (λ s, get s "sessionId") <$> session (view hearing).
Proof.
  assert (H1 : run teacher_props open_and_hear mount = Some hearing)
    by (vm_compute; reflexivity).
  assert (H2 : effect_due hearing = false) by (vm_compute; reflexivity).
  split; [exact H1|]. split; [exact H2|].
  destruct (socket_follows_session _ _ _ H1) as (_ & A & _).
  exact (A H2).
Defined.

(** The teacher marks the first row absent. *)
Lemma override_requests_name_a_started_session_witness :
  run teacher_props view_and_mark mount = Some (teacher_after view_and_mark)
  ∧ PostOverride (VStr "sess_1") (VStr "tok-t")
      (override_body (VStr "s123") "overridden_absent")
    ∈ sent (teacher_after view_and_mark)
  ∧ VStr "tok-t" = token teacher_props
  ∧ ∃ tr1 tr2 w1 i present st,
      view_and_mark = (tr1 ++ ClickMark i present :: tr2)%list
      ∧ run teacher_props tr1 mount = Some w1
      ∧ students (view w1) !! i = Some st
      ∧ override_body (VStr "s123") "overridden_absent"
        = override_body (get st "userId")
            (if present then "overridden_present" else "overridden_absent").
Proof.
  assert (H1 : run teacher_props view_and_mark mount
               = Some (teacher_after view_and_mark)) by (vm_compute; reflexivity).
  assert (H2 : PostOverride (VStr "sess_1") (VStr "tok-t")
      (override_body (VStr "s123") "overridden_absent")
    ∈ sent (teacher_after view_and_mark)).
  { replace (sent (teacher_after view_and_mark))
      with [PostSessionStart (VStr "tok-t") (start_body bob (Q2Qc 0%Q) (Q2Qc 0%Q));
            GetTeacherView (VStr "sess_1") (VStr "tok-t");
            PostOverride (VStr "sess_1") (VStr "tok-t")
              (override_body (VStr "s123") "overridden_absent")]
      by (vm_compute; reflexivity).
    right. right. left. }
  split; [exact H1|]. split; [exact H2|].
  destruct (override_requests_name_a_started_session _ _ _ H1) as (A & _).
  destruct (A _ _ _ H2)
    as (Ht & tr1 & tr2 & w1 & i & present & st & s & data
        & E & Hr & Hst & _ & _ & _ & _ & Hb & _).
  split; [exact Ht|]. exists tr1, tr2, w1, i, present, st.
  exact (conj E (conj Hr (conj Hst Hb))).
Defined.


End TeacherMore.


(** * Properties of App and useAuth *)

Section AppMore.

Lemma app_run_app tr1 tr2 : ∀ w,
  App.run (tr1 ++ tr2) w =
    match App.run tr1 w with Some w1 => App.run tr2 w1 | None => None end.
Proof.
  induction tr1 as [|e tr1 IH]; intros w; simpl; [done|].
  destruct (App.step w e); [apply IH|done].
Qed.

Lemma app_run_snoc tr e w w' :
  App.run (tr ++ [e]) w = Some w'
  ↔ ∃ w1, App.run tr w = Some w1 ∧ App.step w1 e = Some w'.
Proof.
  rewrite app_run_app. destruct (App.run tr w) as [w1|]; simpl.
  - destruct (App.step w1 e) as [w2|] eqn:E; split.
    + intros [= <-]. eauto.
    + intros (? & [= <-] & ?). congruence.
    + done.
    + intros (? & [= <-] & ?). congruence.
  - split; [done|]. by intros (? & ? & _).
Qed.

Lemma app_step_token w e w' :
  App.step w e = Some w' →
  App.token (App.view w') =
    match e with
    | App.LoginResolved _ d => get d "token"
    | _ => App.token (App.view w)
    end.
Proof.
  intros H. unfold App.step, App.login_response, App.login_failed in H.
  destruct e; repeat case_match; by simplify_eq.
Qed.

Lemma app_run_token tr : ∀ w w' acc,
  App.run tr w = Some w' →
  App.token (App.view w) = from_option (λ d, get d "token") VNull acc →
  App.token (App.view w') =
    from_option (λ d, get d "token") VNull (App.last_login tr acc).
Proof.
  induction tr as [|e tr IH]; intros w w' acc Hrun Hacc; simpl in *.
  - by simplify_eq.
  - destruct (App.step w e) as [w1|] eqn:Hs; [|done].
    apply app_step_token in Hs.
    destruct e; apply (IH _ _ _ Hrun); simpl; congruence.
Qed.

(** The token is [null] until a login has resolved and then the [token] of
    the login response received last; a view is rendered exactly when that
    token is truthy, so a later response without a token brings the login
    form back. *)
Theorem view_needs_token_of_last_login tr w :
  App.run tr App.mount = Some w →
  App.token (App.view w) =
    match App.last_login tr None with
    | Some d => get d "token"
    | None => VNull
    end
  ∧ (App.render (App.view w) ≠ App.LoginForm ↔
       ∃ d, App.last_login tr None = Some d ∧ truthy (get d "token") = true).
Proof.
  intros Hrun.
  pose proof (app_run_token tr App.mount w None Hrun eq_refl) as Ht.
  split; [by destruct (App.last_login tr None)|].
  unfold App.render. rewrite Ht.
  destruct (App.last_login tr None) as [d|]; simpl.
  - destruct (truthy (get d "token")) eqn:Et; simpl.
    + split; [by eauto|]. intros _.
      by destruct (bool_decide (App.role (App.view w) = "teacher")).
    + split; [done|]. intros (? & [= <-] & ?). congruence.
  - split; [done|]. by intros (? & ? & _).
Qed.

(** What is known, along a run, of the form, the user and the requests. *)
Lemma app_trace_inv tr : ∀ w,
  App.run tr App.mount = Some w →
  (App.role (App.view w) = "teacher" ∨ App.role (App.view w) = "student")
  ∧ (∀ u, u ∈ App.awaiting_login w →
       (role u = "teacher" ∨ role u = "student") ∧ login_body u ∈ App.sent w)
  ∧ (∀ u, App.user (App.view w) = Some u →
       (role u = "teacher" ∨ role u = "student") ∧ login_body u ∈ App.sent w)
  ∧ (App.user (App.view w) = None → App.token (App.view w) = VNull).
Proof.
  induction tr as [|e tr IH] using rev_ind; intros w Hrun.
  - simpl in Hrun. simplify_eq. split_and!; try done.
    + by right.
    + intros u Hu. by apply elem_of_nil in Hu.
  - apply app_run_snoc in Hrun as (w1 & Hrun & Hs).
    destruct (IH _ Hrun) as (K1 & K2 & K3 & K4). clear IH Hrun.
    unfold App.step, App.login_response, App.login_failed in Hs.
    destruct e as [v|v|v| |i data|i].
    all: repeat (case_match; try discriminate Hs).
    all: injection Hs as <-; simpl.
    all: try (split_and!; solve [auto]).
    + split_and!; auto.
      apply andb_prop in H as [_ Hv]. apply orb_prop in Hv as [Hv|Hv];
        apply bool_decide_eq_true in Hv; auto.
    + split_and!; auto.
      * intros u Hu. apply elem_of_app in Hu as [Hu|Hu].
        -- destruct (K2 u Hu) as [? ?]. split; [done|]. apply elem_of_app. by left.
        -- apply list_elem_of_singleton in Hu. subst u. split; [exact K1|].
           apply elem_of_app. right. left.
      * intros u Hu. destruct (K3 u Hu) as [? ?]. split; [done|].
        apply elem_of_app. by left.
    + assert (Hu : u ∈ App.awaiting_login w1) by by eapply list_elem_of_lookup_2.
      split_and!; auto.
      * intros u0 Hu0. apply K2. by eapply list_elem_of_delete_inv.
      * intros u0 [= <-]. by apply K2.
      * done.
    + split_and!; auto.
      intros u0 Hu0. apply K2. by eapply list_elem_of_delete_inv.
Qed.

Lemma login_body_fields u :
  login_body u !! "userId" = Some (VStr (userId u))
  ∧ login_body u !! "role" = Some (VStr (role u))
  ∧ login_body u !! "name" = Some (VStr (name u)).
Proof.
  unfold login_body, JSON_stringify.
  split_and!; apply map_lookup_filter_Some; (split; [by simplify_map_eq|done]).
Qed.

(** Whenever a view is rendered, its [user] prop is set, to the identity of
    a login request that was sent: the same [userId], [role] and [name] went
    to the server. Which view is rendered follows the Role select: the
    teacher view for 'teacher', the student view for 'student', the only
    other value the select can have. *)
Theorem rendered_view_has_logged_in_user tr w tok u :
  App.run tr App.mount = Some w →
  App.render (App.view w) = App.ShowTeacher tok u
  ∨ App.render (App.view w) = App.ShowStudent tok u →
  tok = App.token (App.view w)
  ∧ truthy tok = true
  ∧ (App.render (App.view w) = App.ShowTeacher tok u → App.role (App.view w) = "teacher")
  ∧ (App.render (App.view w) = App.ShowStudent tok u → App.role (App.view w) = "student")
  ∧ ∃ usr, u = Some usr
           ∧ (role usr = "teacher" ∨ role usr = "student")
           ∧ login_body usr ∈ App.sent w
           ∧ login_body usr !! "userId" = Some (VStr (userId usr))
           ∧ login_body usr !! "role" = Some (VStr (role usr))
           ∧ login_body usr !! "name" = Some (VStr (name usr)).
Proof.
  intros Hrun Hr.
  destruct (app_trace_inv tr w Hrun) as (K1 & _ & K3 & K4).
  unfold App.render in *.
  destruct (truthy (App.token (App.view w))) eqn:Et; simpl in *;
    [|by destruct Hr].
  assert (Htu : tok = App.token (App.view w) ∧ u = App.user (App.view w)).
  { case_bool_decide; destruct Hr as [Hr|Hr]; by simplify_eq. }
  destruct Htu as [-> ->]. split_and!; try done.
  - case_bool_decide; [done|]. intros; simplify_eq.
  - case_bool_decide; [intros; simplify_eq|]. intros _. by destruct K1.
  - destruct (App.user (App.view w)) as [usr|] eqn:Eu.
    + exists usr. destruct (K3 usr eq_refl) as [? ?].
      destruct (login_body_fields usr) as (? & ? & ?). by split_and!.
    + rewrite (K4 eq_refl) in Et. done.
Qed.

Import Samples Scenarios.

(** A teacher logs in and gets a token. *)
Lemma view_needs_token_of_last_login_witness :
  App.run teacher_login App.mount = Some (app_after teacher_login)
  ∧ App.token (App.view (app_after teacher_login))
    = match App.last_login teacher_login None with
      | Some d => get d "token"
      | None => VNull
      end.
Proof.
  assert (H1 : App.run teacher_login App.mount = Some (app_after teacher_login))
    by (vm_compute; reflexivity).
  split; [exact H1|]. exact (proj1 (view_needs_token_of_last_login _ _ H1)).
Defined.

(** The same login: the teacher view is rendered for Bob. *)
Lemma rendered_view_has_logged_in_user_witness :
  App.run teacher_login App.mount = Some (app_after teacher_login)
  ∧ (App.render (App.view (app_after teacher_login))
     = App.ShowTeacher (VStr "tok-t") (Some bob)
     ∨ App.render (App.view (app_after teacher_login))
       = App.ShowStudent (VStr "tok-t") (Some bob))
  ∧ truthy (VStr "tok-t") = true
  ∧ ∃ usr, Some bob = Some usr ∧ login_body usr ∈ App.sent (app_after teacher_login).
Proof.
  assert (H1 : App.run teacher_login App.mount = Some (app_after teacher_login))
    by (vm_compute; reflexivity).
  assert (H2 : App.render (App.view (app_after teacher_login))
               = App.ShowTeacher (VStr "tok-t") (Some bob)
               ∨ App.render (App.view (app_after teacher_login))
                 = App.ShowStudent (VStr "tok-t") (Some bob))
    by (left; vm_compute; reflexivity).
  split; [exact H1|]. split; [exact H2|].
  destruct (rendered_view_has_logged_in_user _ _ _ _ H1 H2)
    as (_ & Ht & _ & _ & usr & E & _ & Hin & _).
  split; [exact Ht|]. exists usr. exact (conj E Hin).
Defined.

End AppMore.
